(** * Spin images with support-angle filtering

    A shallow embedding of [compute_spin_image_with_support_angle]
    (src/spin_image.py, lines 6-61) and of the computation its caller
    performs per chunk (lines 82-91), with the properties its
    specification states about it (C1-C10) and further properties read
    off the code (X1, X3, X10, X11, X13, X14, X17-X19).

    Numbers.  The source computes on NumPy [float64] values.  The
    program is embedded once, over an interface of the floating-point
    operations it uses, and read at two arithmetics:

    - [binary64], IEEE binary64 itself, on Rocq's primitive floats:
      every operation is the correctly rounded one, the embedding runs,
      and the concrete runs below are evaluations of it;
    - [rounded round cosr], the real numbers extended with [+inf],
      [-inf] and [nan], where each operation rounds its exact result
      with [round].  General statements are proved at this arithmetic,
      from laws of [round] that rounding to nearest in binary64 has
      ([ieee_round]): it is monotone, and exact on the values binary64
      represents that the proofs meet.  The sign of zero is not
      represented there.

    [np.cos] is library code: it is a parameter of both arithmetics. *)

From Stdlib Require Import Floats.
From Stdlib Require Import Reals Lra Lia ZArith List Bool.
Import ListNotations.

Local Open Scope R_scope.

(** * The embedding *)

(** ** Exceptions *)

Inductive py_error : Type :=
| ValueError
| OverflowError
| IndexError.

Inductive result (A : Type) : Type :=
| OK (a : A)
| Raise (e : py_error).

Arguments OK {A} a.
Arguments Raise {A} e.

Definition bind {A B : Type} (m : result A) (k : A -> result B) : result B :=
  match m with
  | OK a => k a
  | Raise e => Raise e
  end.

Notation "x <- m ;; k" := (bind m (fun x => k))
  (at level 61, m at next level, right associativity).
Notation "' pat <- m ;; k" := (bind m (fun x => match x with pat => k end))
  (at level 61, pat pattern, m at next level, right associativity).

Definition raises {A : Type} (m : result A) : Prop :=
  match m with OK _ => False | Raise _ => True end.

(** ** The floating-point operations the program uses *)

Record arith (F : Type) : Type := Arith {
  np_add : F -> F -> F;
  np_sub : F -> F -> F;
  np_mul : F -> F -> F;
  np_div : F -> F -> F;        (* a zero divisor gives inf or nan, no exception *)
  np_sqrt : F -> F;            (* nan on a negative argument *)
  np_cos : F -> F;
  np_floor : F -> F;
  np_lt : F -> F -> bool;      (* false when an operand is nan *)
  np_of_int : Z -> F;          (* a Python int used as a float operand *)
  py_int : F -> result Z       (* int(x): ValueError on nan, OverflowError on inf *)
}.

Arguments np_add {F} a x y.
Arguments np_sub {F} a x y.
Arguments np_mul {F} a x y.
Arguments np_div {F} a x y.
Arguments np_sqrt {F} a x.
Arguments np_cos {F} a x.
Arguments np_floor {F} a x.
Arguments np_lt {F} a x y.
Arguments np_of_int {F} a z.
Arguments py_int {F} a x.

(** ** Vectors, point clouds and grids *)

Record vec3 (F : Type) : Type := mkvec { vx : F; vy : F; vz : F }.

Arguments mkvec {F} vx vy vz.
Arguments vx {F} v.
Arguments vy {F} v.
Arguments vz {F} v.

(** The part of [o3d.geometry.PointCloud] that the function reads. *)
Record point_cloud (F : Type) : Type :=
  mkcloud { points : list (vec3 F); normals : list (vec3 F) }.

Arguments mkcloud {F} points normals.
Arguments points {F} p.
Arguments normals {F} p.

Definition grid (F : Type) : Type := list (list F).

(** An index into an axis of length [n]: negative indices count from the
    end, anything else out of range raises [IndexError]. *)
Definition np_index (n : nat) (i : Z) : result nat :=
  if ((0 <=? i) && (i <? Z.of_nat n))%Z then OK (Z.to_nat i)
  else if ((- Z.of_nat n <=? i) && (i <? 0))%Z then OK (Z.to_nat (i + Z.of_nat n))
  else Raise IndexError.

Fixpoint alter_nth {A : Type} (l : list A) (n : nat) (f : A -> A) : list A :=
  match l, n with
  | [], _ => []
  | a :: l', O => f a :: l'
  | a :: l', S n' => a :: alter_nth l' n' f
  end.

Fixpoint for_each {A S : Type} (body : S -> A -> result S) (l : list A) (s : S)
  : result S :=
  match l with
  | [] => OK s
  | a :: l' => s' <- body s a ;; for_each body l' s'
  end.

(** [v[i]] on an Open3D vector *)
Definition get_item {A : Type} (v : list A) (i : nat) : result A :=
  match nth_error v i with
  | Some a => OK a
  | None => Raise IndexError
  end.

(** Line 50 *)
Definition in_bounds (resolution i j : Z) : bool :=
  ((0 <=? i) && (i <? resolution - 1) && ((0 <=? j) && (j <? resolution - 1)))%Z.

(** ** The program, over an arithmetic *)

Section Program.

Context {F : Type} (A : arith F).

(** [x ** 2] *)
Definition np_square (x : F) : F := np_mul A x x.

(** [np.dot] of two 3-vectors *)
Definition np_dot (u v : vec3 F) : F :=
  np_add A (np_add A (np_mul A (vx u) (vx v)) (np_mul A (vy u) (vy v)))
         (np_mul A (vz u) (vz v)).

(** [u - v], elementwise *)
Definition vec_sub (u v : vec3 F) : vec3 F :=
  mkvec (np_sub A (vx u) (vx v)) (np_sub A (vy u) (vy v))
        (np_sub A (vz u) (vz v)).

(** [np.linalg.norm] of a 3-vector: the square root of [dot(d, d)] *)
Definition np_norm (d : vec3 F) : F := np_sqrt A (np_dot d d).

(** The [resolution] x [resolution] grid of zeros *)
Definition zeros (resolution : Z) : grid F :=
  repeat (repeat (np_of_int A 0) (Z.to_nat resolution)) (Z.to_nat resolution).

(** [np.zeros((resolution, resolution))]; a negative dimension raises. *)
Definition np_zeros (resolution : Z) : result (grid F) :=
  if (resolution <? 0)%Z then Raise ValueError else OK (zeros resolution).

(** [SI[i, j] += w] *)
Definition grid_add (SI : grid F) (i j : Z) (w : F) : result (grid F) :=
  r <- np_index (length SI) i ;;
  c <- np_index (length (nth r SI [])) j ;;
  OK (alter_nth SI r (fun row => alter_nth row c (fun v => np_add A v w))).

(** The argument of the square root of line 43 *)
Definition radicand (O n_A x : vec3 F) : F :=
  np_sub A (np_square (np_norm (vec_sub x O)))
         (np_square (np_dot n_A (vec_sub x O))).

(** Lines 42-44: the cylindrical coordinates [(alpha, beta)] of [x]. *)
Definition spin_coords (O n_A x : vec3 F) : F * F :=
  let d := vec_sub x O in
  let alpha :=
    np_sqrt A (np_sub A (np_square (np_norm d)) (np_square (np_dot n_A d))) in
  let beta := np_dot n_A d in
  (alpha, beta).

(** [resolution / 2 - beta / bin_size] and [alpha / bin_size] *)
Definition row_coord (resolution : Z) (bin_size beta : F) : F :=
  np_sub A (np_div A (np_of_int A resolution) (np_of_int A 2))
         (np_div A beta bin_size).

Definition col_coord (bin_size alpha : F) : F := np_div A alpha bin_size.

(** Lines 47-48 *)
Definition bin_index (resolution : Z) (bin_size alpha beta : F)
  : result (Z * Z) :=
  i <- py_int A (np_floor A (row_coord resolution bin_size beta)) ;;
  j <- py_int A (np_floor A (col_coord bin_size alpha)) ;;
  OK (i, j).

(** Lines 52-53: the fractional offsets [a] and [b], then the four
    weights in the order of lines 56-59. *)
Definition bilinear_weights (resolution : Z) (bin_size alpha beta : F)
  (i j : Z) : F * F * F * F :=
  let a := np_sub A (col_coord bin_size alpha) (np_of_int A j) in
  let b := np_sub A (row_coord resolution bin_size beta) (np_of_int A i) in
  (np_mul A (np_sub A (np_of_int A 1) a) (np_sub A (np_of_int A 1) b),
   np_mul A a (np_sub A (np_of_int A 1) b),
   np_mul A (np_sub A (np_of_int A 1) a) b,
   np_mul A a b).

(** Lines 56-59 *)
Definition accumulate (SI : grid F) (i j : Z) (w : F * F * F * F)
  : result (grid F) :=
  let '(w00, w10, w01, w11) := w in
  SI <- grid_add SI i j w00 ;;
  SI <- grid_add SI (i + 1) j w10 ;;
  SI <- grid_add SI i (j + 1) w01 ;;
  grid_add SI (i + 1) (j + 1) w11.

(** Lines 41-59: what happens to a neighbour that passed the angle test. *)
Definition bin_neighbor (O n_A : vec3 F) (bin_size : F) (resolution : Z)
  (SI : grid F) (x : vec3 F) : result (grid F) :=
  let '(alpha, beta) := spin_coords O n_A x in
  '(i, j) <- bin_index resolution bin_size alpha beta ;;
  if in_bounds resolution i j
  then accumulate SI i j (bilinear_weights resolution bin_size alpha beta i j)
  else OK SI.

(** Lines 37-59: one iteration, for the pair [(x, n_B)]. *)
Definition loop_body (O n_A : vec3 F) (bin_size : F) (resolution : Z)
  (cos_threshold : F) (SI : grid F) (p : vec3 F * vec3 F) : result (grid F) :=
  let '(x, n_B) := p in
  if np_lt A (np_dot n_A n_B) cos_threshold then OK SI
  else bin_neighbor O n_A bin_size resolution SI x.

(** The function, lines 6-61 *)
Definition compute_spin_image_with_support_angle
  (oriented_point : vec3 F * vec3 F) (chunk : point_cloud F)
  (support_radius bin_size : F) (resolution : Z) (support_angle : F)
  : result (grid F) :=
  let O := fst oriented_point in
  let n_A := snd oriented_point in
  SI <- np_zeros resolution ;;
  let cos_threshold := np_cos A support_angle in
  for_each (loop_body O n_A bin_size resolution cos_threshold)
           (combine (points chunk) (normals chunk)) SI.

(** The caller, lines 82-91: what [visualize_chunks_and_spin_images]
    computes for one chunk.  The chunk is selected from the mesh, its
    normals are estimated, the oriented point is entry 500 of the chunk
    with its normal, and the spin image of the chunk about it is built.
    The two Open3D operations are parameters; the plotting around the
    computation is not represented. *)
Definition chunk_spin_image
  (select_by_index : point_cloud F -> list Z -> point_cloud F)
  (estimate_normals : point_cloud F -> point_cloud F)
  (mesh : point_cloud F) (chunk_indices : list Z)
  (support_radius bin_size : F) (resolution : Z) (support_angle : F)
  : result (grid F) :=
  let chunk := estimate_normals (select_by_index mesh chunk_indices) in
  p <- get_item (points chunk) 500 ;;
  n <- get_item (normals chunk) 500 ;;
  compute_spin_image_with_support_angle (p, n) chunk support_radius bin_size
    resolution support_angle.

(** A pair [(x, n_B)] that fails the angle test, or whose bin indices
    are computed and fail the bounds check. *)
Definition rejected (O n_A : vec3 F) (bin_size : F) (resolution : Z)
  (cos_threshold : F) (p : vec3 F * vec3 F) : Prop :=
  np_lt A (np_dot n_A (snd p)) cos_threshold = true \/
  exists i j : Z,
    bin_index resolution bin_size (fst (spin_coords O n_A (fst p)))
              (snd (spin_coords O n_A (fst p))) = OK (i, j) /\
    in_bounds resolution i j = false.

(** A grid with [n] rows of [n] cells *)
Definition shaped (n : Z) (SI : grid F) : Prop :=
  Z.of_nat (length SI) = n /\ Forall (fun row => Z.of_nat (length row) = n) SI.

End Program.

(** ** IEEE binary64

    The arithmetic of the source: Rocq's primitive floats are IEEE
    binary64 with rounding to nearest, ties to even. *)

(** [float(z)], correctly rounded *)
Definition b64_of_int (z : Z) : float :=
  SF2Prim (binary_normalize prec emax z 0 false).

(** [np.floor]: the largest integral float not above [x]; zeros,
    infinities and [nan] are returned as they are. *)
Definition b64_floor (x : float) : float :=
  match Prim2SF x with
  | S754_finite s m e =>
      if (0 <=? e)%Z then x
      else
        let d := (2 ^ (- e))%Z in
        let q := (Zpos m / d)%Z in
        b64_of_int (if s
                    then (if (Zpos m mod d =? 0)%Z then - q else - q - 1)%Z
                    else q)
  | _ => x
  end.

(** [int(x)]: truncation toward zero *)
Definition b64_int (x : float) : result Z :=
  match Prim2SF x with
  | S754_nan => Raise ValueError
  | S754_infinity _ => Raise OverflowError
  | S754_zero _ => OK 0%Z
  | S754_finite s m e =>
      let v := (if 0 <=? e then Zpos m * 2 ^ e else Zpos m / 2 ^ (- e))%Z in
      OK (if s then (- v)%Z else v)
  end.

Definition binary64 (cos64 : float -> float) : arith float :=
  Arith float PrimFloat.add PrimFloat.sub PrimFloat.mul PrimFloat.div
        PrimFloat.sqrt cos64 b64_floor PrimFloat.ltb b64_of_int b64_int.

(** ** Rounded real arithmetic

    Values are the reals extended with the IEEE special values; an
    operation on finite operands rounds its exact result with [round],
    which returns a finite value or, on overflow, an infinity.  A
    special value appears where IEEE arithmetic produces one. *)

Inductive np_float : Type :=
| Fin (r : R)
| PInf
| NInf
| NaN.

(** The order of the extended reals; [nan] is not comparable. *)
Definition np_le (x y : np_float) : Prop :=
  match x, y with
  | NaN, _ | _, NaN => False
  | Fin a, Fin b => a <= b
  | NInf, _ | _, PInf => True
  | _, _ => False
  end.

(** [inf_signed r] is the infinity carrying the sign of [r], and [nan]
    when [r] is zero: the value of [inf * r] and of [r / 0]. *)
Definition inf_signed (r : R) : np_float :=
  if Rlt_dec 0 r then PInf else if Rlt_dec r 0 then NInf else NaN.

(** [int(x)] on a finite value truncates toward zero. *)
Definition trunc (r : R) : Z :=
  if Rlt_dec r 0 then (- Zfloor (- r))%Z else Zfloor r.

Section Rounded.

Variable round : R -> np_float.
Variable cosr : R -> R.

Definition rr_neg (x : np_float) : np_float :=
  match x with
  | Fin r => Fin (- r)
  | PInf => NInf
  | NInf => PInf
  | NaN => NaN
  end.

Definition rr_add (x y : np_float) : np_float :=
  match x, y with
  | NaN, _ | _, NaN => NaN
  | Fin a, Fin b => round (a + b)
  | PInf, NInf | NInf, PInf => NaN
  | PInf, _ | _, PInf => PInf
  | NInf, _ | _, NInf => NInf
  end.

Definition rr_sub (x y : np_float) : np_float := rr_add x (rr_neg y).

Definition rr_mul (x y : np_float) : np_float :=
  match x, y with
  | NaN, _ | _, NaN => NaN
  | Fin a, Fin b => round (a * b)
  | PInf, Fin r | Fin r, PInf => inf_signed r
  | NInf, Fin r | Fin r, NInf => inf_signed (- r)
  | PInf, PInf | NInf, NInf => PInf
  | PInf, NInf | NInf, PInf => NInf
  end.

Definition rr_div (x y : np_float) : np_float :=
  match x, y with
  | NaN, _ | _, NaN => NaN
  | Fin a, Fin b => if Req_dec_T b 0 then inf_signed a else round (a / b)
  | Fin _, PInf | Fin _, NInf => Fin 0
  | PInf, Fin b => if Rlt_dec b 0 then NInf else PInf
  | NInf, Fin b => if Rlt_dec b 0 then PInf else NInf
  | PInf, _ | NInf, _ => NaN
  end.

Definition rr_sqrt (x : np_float) : np_float :=
  match x with
  | Fin r => if Rlt_dec r 0 then NaN else round (sqrt r)
  | PInf => PInf
  | NInf | NaN => NaN
  end.

Definition rr_cos (x : np_float) : np_float :=
  match x with
  | Fin r => Fin (cosr r)
  | _ => NaN
  end.

Definition rr_floor (x : np_float) : np_float :=
  match x with
  | Fin r => Fin (IZR (Zfloor r))
  | _ => x
  end.

Definition rr_lt (x y : np_float) : bool :=
  match x, y with
  | NaN, _ | _, NaN => false
  | Fin a, Fin b => if Rlt_dec a b then true else false
  | NInf, NInf => false
  | NInf, _ => true
  | _, NInf => false
  | PInf, _ => false
  | Fin _, PInf => true
  end.

Definition rr_of_int (z : Z) : np_float := round (IZR z).

Definition rr_int (x : np_float) : result Z :=
  match x with
  | Fin r => OK (trunc r)
  | PInf | NInf => Raise OverflowError
  | NaN => Raise ValueError
  end.

Definition rounded : arith np_float :=
  Arith np_float rr_add rr_sub rr_mul rr_div rr_sqrt rr_cos rr_floor rr_lt
        rr_of_int rr_int.

End Rounded.

(** [2^-53], the bound on a rounding error in [[-1, 1]] *)
Definition eps64 : R := / 9007199254740992.

(** The laws of [round] that the proofs use.  Rounding to nearest in
    binary64 has each of them: it is monotone; integers up to [2^53]
    and their halves are representable; a rounded value is
    representable, and so is its floor; and in [[-1, 1]] the result is
    within [2^-53] of the exact value.  Exact arithmetic, [round := Fin],
    has them too. *)
Record ieee_round (round : R -> np_float) : Prop := {
  round_monotone : forall a b : R, a <= b -> np_le (round a) (round b);
  round_int : forall z : Z, (Z.abs z <= 2 ^ 53)%Z -> round (IZR z) = Fin (IZR z);
  round_half :
    forall z : Z, (Z.abs z <= 2 ^ 53)%Z -> round (IZR z / 2) = Fin (IZR z / 2);
  round_fixed : forall r v : R, round r = Fin v -> round v = Fin v;
  round_floor :
    forall v : R, round v = Fin v -> round (IZR (Zfloor v)) = Fin (IZR (Zfloor v));
  round_unit_error :
    forall r : R, -1 <= r <= 1 ->
    exists v : R, round r = Fin v /\ Rabs (v - r) <= eps64
}.

(** A value that is not [nan] and not below zero *)
Definition np_nonneg (x : np_float) : Prop := np_le (Fin 0) x.

(** Finite vectors *)
Record rvec : Type := mkrvec { rx : R; ry : R; rz : R }.

Definition embed (v : rvec) : vec3 np_float :=
  mkvec (Fin (rx v)) (Fin (ry v)) (Fin (rz v)).

Definition rdot (u v : rvec) : R := rx u * rx v + ry u * ry v + rz u * rz v.

Definition unit_vec (v : rvec) : Prop := rdot v v = 1.

(** ** The running examples *)

(** The reference point at the origin with normal [e_z] and one
    neighbour at [e_z], in both arithmetics. *)
Definition origin : rvec := mkrvec 0 0 0.
Definition e_z : rvec := mkrvec 0 0 1.

Definition origin64 : vec3 float := mkvec 0%float 0%float 0%float.
Definition e_z64 : vec3 float := mkvec 0%float 0%float 1%float.

(** [np.pi] *)
Definition pi64 : float := 0x1.921fb54442d18p+1%float.

(** A stand-in for [np.cos] where a run needs one: it returns the
    value of [np.cos(np.pi)], which is [-1.0]. *)
Definition cos_pi (_ : float) : float := (-1)%float.


Definition n35 : vec3 float := mkvec (3 / 5)%float (4 / 5)%float 0%float.

(** [(3/7) * n35], a point on the axis through the origin along [n35] *)
Definition x37 : vec3 float :=
  mkvec (3 / 7 * (3 / 5))%float (3 / 7 * (4 / 5))%float (3 / 7 * 0)%float.

(** [2^700], whose square overflows *)
Definition big64 : float := 0x1p+700%float.

(** The float nearest to 0.3 *)
Definition f03 : float := 0x1.3333333333333p-2%float.

(** The grid of the running example: 1 in bin (1,0), 0 elsewhere *)
Definition example_grid {F : Type} (zero one : F) : grid F :=
  [[zero; zero; zero; zero];
   [one; zero; zero; zero];
   [zero; zero; zero; zero];
   [zero; zero; zero; zero]].

(** The neighbour (0.16, 0, -0.03), the floats nearest to these decimals *)
Definition x016 : vec3 float :=
  mkvec (16 / 100)%float 0%float (- (3 / 100))%float.

(** The exact value of a finite float times [2^k], when that is an
    integer, and the exact sum of a list of floats on that scale. *)
Definition b64_exact (k : Z) (x : float) : option Z :=
  match Prim2SF x with
  | S754_zero _ => Some 0%Z
  | S754_finite s m e =>
      if (0 <=? e + k)%Z
      then Some ((if s then - Zpos m else Zpos m) * 2 ^ (e + k))%Z
      else None
  | _ => None
  end.

Fixpoint exact_sum (k : Z) (l : list float) : option Z :=
  match l with
  | [] => Some 0%Z
  | x :: l' =>
      match b64_exact k x, exact_sum k l' with
      | Some a, Some b => Some (a + b)%Z
      | _, _ => None
      end
  end.

(** The four weights as a list, and the sum of a list of floats from
    left to right *)
Definition weights_list {F : Type} (w : F * F * F * F) : list F :=
  let '(w00, w10, w01, w11) := w in [w00; w10; w01; w11].

Definition float_sum (l : list float) : float :=
  fold_left PrimFloat.add l 0%float.

(** The weights of the neighbour [x016] about the origin with normal
    [e_z], for a bin size of 1 and a resolution of 4 *)
Definition w016 : float * float * float * float :=
  bilinear_weights (binary64 cos_pi) 4 1%float
    (fst (spin_coords (binary64 cos_pi) origin64 e_z64 x016))
    (snd (spin_coords (binary64 cos_pi) origin64 e_z64 x016)) 2 0.

(** Exact arithmetic: the rounded arithmetic that rounds nothing, with
    the mathematical cosine *)
Definition exact_arith : arith np_float := rounded Fin cos.

(** ** Notions used by the statements *)

(** An arithmetic whose [int()] fails with [ValueError] or
    [OverflowError] only, as Python's does *)
Definition int_errors {F : Type} (A : arith F) : Prop :=
  forall (v : F) (e : py_error),
    py_int A v = Raise e -> e = ValueError \/ e = OverflowError.

(** An outcome that is an [n] x [n] grid, or [ValueError] or
    [OverflowError] *)
Definition in_range_outcome {F : Type} (n : Z) (m : result (grid F)) : Prop :=
  match m with
  | OK SI => shaped n SI
  | Raise e => e = ValueError \/ e = OverflowError
  end.

(** * Properties *)

(** ** Lists and indices *)

Lemma alter_nth_length {A : Type} (l : list A) (n : nat) (f : A -> A) :
  length (alter_nth l n f) = length l.
Proof.
  revert n; induction l as [|a l IH]; intros [|n]; simpl; auto.
Qed.

Lemma alter_nth_Forall {A : Type} (P : A -> Prop) (f : A -> A) (l : list A) (n : nat) :
  (forall a, P a -> P (f a)) -> Forall P l -> Forall P (alter_nth l n f).
Proof.
  intros Hf H. revert n; induction H as [|a l Ha Hl IH]; intros [|n]; simpl;
    constructor; auto.
Qed.

Lemma np_index_in_range (n : nat) (i : Z) :
  (0 <= i < Z.of_nat n)%Z -> np_index n i = OK (Z.to_nat i).
Proof.
  intros Hi. unfold np_index.
  destruct (Z.leb_spec 0 i), (Z.ltb_spec i (Z.of_nat n)); simpl; auto; lia.
Qed.

Lemma in_bounds_spec (resolution i j : Z) :
  in_bounds resolution i j = true <->
  (0 <= i < resolution - 1 /\ 0 <= j < resolution - 1)%Z.
Proof. unfold in_bounds. rewrite !andb_true_iff. lia. Qed.

Lemma in_bounds_small (resolution i j : Z) :
  (resolution <= 1)%Z -> in_bounds resolution i j = false.
Proof.
  intros H. destruct (in_bounds resolution i j) eqn:Hb; [|reflexivity].
  apply in_bounds_spec in Hb. lia.
Qed.

(** ** Control flow, for every arithmetic *)

Section Generic.

Context {F : Type} (A : arith F).

Lemma shaped_zeros (n : Z) : (0 <= n)%Z -> shaped n (zeros A n).
Proof.
  intros Hn. unfold shaped, zeros. split.
  - rewrite repeat_length. lia.
  - apply Forall_forall. intros row Hrow. apply repeat_spec in Hrow. subst.
    rewrite repeat_length. lia.
Qed.

Lemma zeros_zero (n : Z) :
  Forall (Forall (fun v => v = np_of_int A 0)) (zeros A n).
Proof.
  unfold zeros. apply Forall_forall. intros row Hrow.
  apply repeat_spec in Hrow. subst. apply Forall_forall. intros v Hv.
  now apply repeat_spec in Hv.
Qed.

Lemma np_zeros_ok (n : Z) : (0 <= n)%Z -> np_zeros A n = OK (zeros A n).
Proof.
  intros Hn. unfold np_zeros. destruct (Z.ltb_spec n 0); [lia|reflexivity].
Qed.

Lemma np_zeros_negative (n : Z) : (n < 0)%Z -> np_zeros A n = Raise ValueError.
Proof.
  intros Hn. unfold np_zeros. destruct (Z.ltb_spec n 0); [reflexivity|lia].
Qed.

(** A neighbour that passes the angle test is handed to the binning. *)
Lemma loop_body_accept (O n_A : vec3 F) (bin_size : F) (resolution : Z)
  (cos_threshold : F) (SI : grid F) (x n_B : vec3 F) :
  np_lt A (np_dot A n_A n_B) cos_threshold = false ->
  loop_body A O n_A bin_size resolution cos_threshold SI (x, n_B) =
  bin_neighbor A O n_A bin_size resolution SI x.
Proof. intros H. unfold loop_body. now rewrite H. Qed.

Lemma loop_body_skip (O n_A : vec3 F) (bin_size : F) (resolution : Z)
  (cos_threshold : F) (SI : grid F) (x n_B : vec3 F) :
  np_lt A (np_dot A n_A n_B) cos_threshold = true ->
  loop_body A O n_A bin_size resolution cos_threshold SI (x, n_B) = OK SI.
Proof. intros H. unfold loop_body. now rewrite H. Qed.

Lemma bin_neighbor_unfold (O n_A : vec3 F) (bin_size : F) (resolution : Z)
  (SI : grid F) (x : vec3 F) :
  bin_neighbor A O n_A bin_size resolution SI x =
  ('(i, j) <- bin_index A resolution bin_size (fst (spin_coords A O n_A x))
                        (snd (spin_coords A O n_A x)) ;;
   if in_bounds resolution i j
   then accumulate A SI i j
          (bilinear_weights A resolution bin_size (fst (spin_coords A O n_A x))
                            (snd (spin_coords A O n_A x)) i j)
   else OK SI).
Proof. unfold bin_neighbor. now destruct (spin_coords A O n_A x). Qed.

Lemma loop_body_drop (O n_A : vec3 F) (bin_size : F) (resolution : Z)
  (cos_threshold : F) (SI : grid F) (x n_B : vec3 F) (i j : Z) :
  bin_index A resolution bin_size (fst (spin_coords A O n_A x))
            (snd (spin_coords A O n_A x)) = OK (i, j) ->
  in_bounds resolution i j = false ->
  loop_body A O n_A bin_size resolution cos_threshold SI (x, n_B) = OK SI.
Proof.
  intros Hidx Hb. unfold loop_body.
  destruct (np_lt _ _ _); [reflexivity|].
  rewrite bin_neighbor_unfold, Hidx. cbn [bind]. now rewrite Hb.
Qed.

Lemma for_each_rejected (O n_A : vec3 F) (bin_size : F) (resolution : Z)
  (cos_threshold : F) (l : list (vec3 F * vec3 F)) (SI : grid F) :
  Forall (rejected A O n_A bin_size resolution cos_threshold) l ->
  for_each (loop_body A O n_A bin_size resolution cos_threshold) l SI = OK SI.
Proof.
  induction 1 as [|[x n_B] l Hp Hl IH]; [reflexivity|].
  cbn [for_each].
  assert (Hstep : loop_body A O n_A bin_size resolution cos_threshold SI (x, n_B)
                  = OK SI).
  { destruct Hp as [Hskip|(i & j & Hidx & Hb)].
    - now apply loop_body_skip.
    - now apply (loop_body_drop _ _ _ _ _ _ _ _ i j). }
  rewrite Hstep. exact IH.
Qed.

(** *** Indexing stays inside the grid *)

Lemma grid_add_shaped (n : Z) (SI : grid F) (i j : Z) (w : F) :
  shaped n SI -> (0 <= i < n)%Z -> (0 <= j < n)%Z ->
  grid_add A SI i j w =
  OK (alter_nth SI (Z.to_nat i)
        (fun row => alter_nth row (Z.to_nat j) (fun v => np_add A v w))) /\
  shaped n (alter_nth SI (Z.to_nat i)
              (fun row => alter_nth row (Z.to_nat j) (fun v => np_add A v w))).
Proof.
  intros [Hlen Hrows] Hi Hj. unfold grid_add.
  rewrite np_index_in_range by lia. cbn [bind].
  assert (Hrow : Z.of_nat (length (nth (Z.to_nat i) SI [])) = n).
  { rewrite Forall_forall in Hrows. apply Hrows, nth_In. lia. }
  rewrite np_index_in_range by lia. cbn [bind].
  split; [reflexivity|]. split.
  - now rewrite alter_nth_length.
  - apply alter_nth_Forall; [|assumption].
    intros row Hr. now rewrite alter_nth_length.
Qed.

Lemma grid_add_at (SI : grid F) (i j : Z) (r c : nat) (w : F) :
  np_index (length SI) i = OK r ->
  np_index (length (nth r SI [])) j = OK c ->
  grid_add A SI i j w =
  OK (alter_nth SI r (fun row => alter_nth row c (fun v => np_add A v w))).
Proof. intros Hr Hc. unfold grid_add. rewrite Hr. cbn [bind]. now rewrite Hc. Qed.

Lemma accumulate_shaped (n : Z) (SI : grid F) (i j : Z) (w : F * F * F * F) :
  shaped n SI -> in_bounds n i j = true ->
  exists SI', accumulate A SI i j w = OK SI' /\ shaped n SI'.
Proof.
  intros HSI Hb. apply in_bounds_spec in Hb.
  destruct w as [[[w00 w10] w01] w11]. unfold accumulate.
  destruct (grid_add_shaped n SI i j w00 HSI) as [-> H1]; try lia.
  cbn [bind].
  destruct (grid_add_shaped n _ (i + 1) j w10 H1) as [-> H2]; try lia.
  cbn [bind].
  destruct (grid_add_shaped n _ i (j + 1) w01 H2) as [-> H3]; try lia.
  cbn [bind].
  destruct (grid_add_shaped n _ (i + 1) (j + 1) w11 H3) as [-> H4]; try lia.
  eexists. split; [reflexivity|exact H4].
Qed.

Lemma bin_index_error (resolution : Z) (bin_size alpha beta : F) (e : py_error) :
  int_errors A ->
  bin_index A resolution bin_size alpha beta = Raise e ->
  e = ValueError \/ e = OverflowError.
Proof.
  intros Hint. unfold bin_index.
  destruct (py_int A (np_floor A (row_coord A resolution bin_size beta)))
    as [i|e1] eqn:Hi; cbn [bind].
  - destruct (py_int A (np_floor A (col_coord A bin_size alpha)))
      as [j|e2] eqn:Hj; cbn [bind]; [discriminate|].
    intros [= <-]. eapply Hint, Hj.
  - intros [= <-]. eapply Hint, Hi.
Qed.

Lemma loop_body_in_range (O n_A : vec3 F) (bin_size : F) (resolution : Z)
  (cos_threshold : F) (SI : grid F) (p : vec3 F * vec3 F) :
  int_errors A -> shaped resolution SI ->
  in_range_outcome resolution
    (loop_body A O n_A bin_size resolution cos_threshold SI p).
Proof.
  intros Hint HSI. destruct p as [x n_B]. unfold loop_body.
  destruct (np_lt _ _ _); [exact HSI|]. rewrite bin_neighbor_unfold.
  destruct (bin_index A resolution bin_size _ _) as [[i j]|e] eqn:Hidx;
    cbn [bind in_range_outcome].
  - destruct (in_bounds resolution i j) eqn:Hb; [|exact HSI].
    destruct (accumulate_shaped resolution SI i j
                (bilinear_weights A resolution bin_size
                   (fst (spin_coords A O n_A x)) (snd (spin_coords A O n_A x)) i j)
                HSI Hb) as (SI' & -> & HSI').
    exact HSI'.
  - eapply bin_index_error; eassumption.
Qed.

Lemma for_each_in_range (O n_A : vec3 F) (bin_size : F) (resolution : Z)
  (cos_threshold : F) (l : list (vec3 F * vec3 F)) (SI : grid F) :
  int_errors A -> shaped resolution SI ->
  in_range_outcome resolution
    (for_each (loop_body A O n_A bin_size resolution cos_threshold) l SI).
Proof.
  intros Hint. revert SI. induction l as [|p l IH]; intros SI HSI; [exact HSI|].
  cbn [for_each].
  pose proof (loop_body_in_range O n_A bin_size resolution cos_threshold SI p
                Hint HSI) as Hstep.
  destruct (loop_body A O n_A bin_size resolution cos_threshold SI p) as [SI'|e];
    cbn [bind]; [now apply IH|exact Hstep].
Qed.

Lemma compute_in_range (oriented_point : vec3 F * vec3 F) (chunk : point_cloud F)
  (support_radius bin_size : F) (resolution : Z) (support_angle : F) :
  int_errors A ->
  in_range_outcome resolution
    (compute_spin_image_with_support_angle A oriented_point chunk support_radius
       bin_size resolution support_angle).
Proof.
  intros Hint. unfold compute_spin_image_with_support_angle, np_zeros.
  destruct (Z.ltb_spec resolution 0); cbn [bind in_range_outcome]; [now left|].
  apply for_each_in_range; [assumption|]. now apply shaped_zeros.
Qed.

End Generic.

(** ** Facts of binary64 *)

Lemma binary64_int_errors (cos64 : float -> float) : int_errors (binary64 cos64).
Proof.
  intros v e. cbn [py_int binary64]. unfold b64_int.
  destruct (Prim2SF v) as [s|s| |s m ex]; try discriminate; intros [= <-]; auto.
Qed.

Lemma SFcompare_refl (x : spec_float) : SFcompare x x <> Some Lt.
Proof.
  destruct x as [s|s| |s m e]; simpl; try discriminate.
  - destruct s; discriminate.
  - rewrite Z.compare_refl.
    fold (Pos.compare m m). rewrite Pos.compare_refl.
    destruct s; discriminate.
Qed.

(** [x < x] is false for every float, [nan] included. *)
Lemma b64_lt_irrefl (x : float) : PrimFloat.ltb x x = false.
Proof.
  rewrite ltb_spec. unfold SFltb.
  pose proof (SFcompare_refl (Prim2SF x)) as H.
  destruct (SFcompare (Prim2SF x) (Prim2SF x)) as [[ | | ]|]; congruence.
Qed.

(** The loop does not evaluate [np.cos]: on binary64, a call is the
    loop run with the threshold that [np.cos] returned. *)
Lemma binary64_call (cos64 : float -> float) (oriented_point : vec3 float * vec3 float)
  (chunk : point_cloud float) (support_radius bin_size : float) (resolution : Z)
  (support_angle : float) :
  compute_spin_image_with_support_angle (binary64 cos64) oriented_point chunk
    support_radius bin_size resolution support_angle =
  (SI <- np_zeros (binary64 cos_pi) resolution ;;
   for_each (loop_body (binary64 cos_pi) (fst oriented_point) (snd oriented_point)
               bin_size resolution (cos64 support_angle))
            (combine (points chunk) (normals chunk)) SI).
Proof. reflexivity. Qed.

(** The run of the end-to-end example on binary64, for a neighbour
    normal that passes the angle test *)
Lemma example_run64 (cos64 : float -> float) (n_B : vec3 float)
  (support_radius : float) :
  cos64 pi64 = (-1)%float ->
  PrimFloat.ltb (np_dot (binary64 cos64) e_z64 n_B) (-1)%float = false ->
  compute_spin_image_with_support_angle (binary64 cos64) (origin64, e_z64)
    (mkcloud [e_z64] [n_B]) support_radius 1%float 4 pi64 =
  OK (example_grid 0%float 1%float).
Proof.
  intros Hcos Hpass. rewrite binary64_call. cbn [bind np_zeros Z.ltb Z.compare].
  change (np_zeros (binary64 cos_pi) 4) with (OK (zeros (binary64 cos_pi) 4)).
  cbn [bind fst snd points normals combine for_each].
  rewrite Hcos.
  change (np_dot (binary64 cos64) e_z64 n_B)
    with (np_dot (binary64 cos_pi) e_z64 n_B) in Hpass.
  rewrite loop_body_accept by exact Hpass.
  vm_compute. reflexivity.
Qed.

(** ** Facts of the rounded arithmetic *)

Ltac decide_R :=
  repeat match goal with
    | |- context [Rlt_dec ?a ?b] => destruct (Rlt_dec a b); try lra
    | |- context [Req_dec_T ?a ?b] => destruct (Req_dec_T a b); try lra
    end.

Lemma trunc_IZR (z : Z) : trunc (IZR z) = z.
Proof.
  unfold trunc. destruct (Rlt_dec (IZR z) 0).
  - rewrite ZfloorNZ. lia.
  - apply ZfloorZ.
Qed.

Lemma Zfloor_half (z : Z) : Zfloor (IZR z / 2) = (z / 2)%Z.
Proof.
  apply Zfloor_eq.
  pose proof (Z.div_mod z 2 ltac:(lia)) as Hz.
  pose proof (Z.mod_pos_bound z 2 ltac:(lia)) as Hm.
  assert (IZR z = 2 * IZR (z / 2) + IZR (z mod 2)) as ->
    by (rewrite Hz at 1; rewrite plus_IZR, mult_IZR; reflexivity).
  assert (0 <= IZR (z mod 2) < 2) as Hr
    by (split; [apply IZR_le | apply IZR_lt]; lia).
  lra.
Qed.

Lemma frac_half (z : Z) : IZR z / 2 - IZR (z / 2) = IZR (z mod 2) / 2.
Proof.
  pose proof (Z.div_mod z 2 ltac:(lia)) as Hz.
  assert (IZR z = 2 * IZR (z / 2) + IZR (z mod 2)) as Hr
    by (rewrite Hz at 1; rewrite plus_IZR, mult_IZR; reflexivity).
  lra.
Qed.

Lemma Zfloor_mono (a b : R) : a <= b -> (Zfloor a <= Zfloor b)%Z.
Proof.
  intros H. apply Zfloor_lub. pose proof (Zfloor_bound a). lra.
Qed.

Lemma Rabs_bound (a b : R) : Rabs a <= b -> - b <= a <= b.
Proof. unfold Rabs. destruct (Rcase_abs a); lra. Qed.

Lemma eps64_pos : 0 < eps64.
Proof. unfold eps64. lra. Qed.

(** Exact arithmetic has the laws of [round]. *)
Lemma exact_round_ieee : ieee_round Fin.
Proof.
  split.
  - intros a b H. exact H.
  - reflexivity.
  - reflexivity.
  - intros r v H. reflexivity.
  - reflexivity.
  - intros r _. exists r. split; [reflexivity|].
    replace (r - r) with 0 by lra. rewrite Rabs_R0. pose proof eps64_pos. lra.
Qed.

Section RoundedFacts.

Variable round : R -> np_float.
Variable cosr : R -> R.

Local Notation "'RA'" := (rounded round cosr).

(** *** Propagation of [nan] and infinities, for every [round] *)

Lemma rr_add_nan_r (x : np_float) : rr_add round x NaN = NaN.
Proof. now destruct x. Qed.

Lemma rr_sub_nan_r (x : np_float) : rr_sub round x NaN = NaN.
Proof. unfold rr_sub. cbn [rr_neg]. apply rr_add_nan_r. Qed.

Lemma rr_mul_nan_r (x : np_float) : rr_mul round x NaN = NaN.
Proof. now destruct x. Qed.

Lemma rr_lt_nan_r (x : np_float) : rr_lt x NaN = false.
Proof. now destruct x. Qed.

Lemma rr_lt_irrefl (x : np_float) : rr_lt x x = false.
Proof. destruct x; simpl; auto. decide_R; reflexivity. Qed.

Lemma rr_dot_nan (u v : vec3 np_float) :
  vx u = NaN \/ vy u = NaN \/ vz u = NaN \/
  vx v = NaN \/ vy v = NaN \/ vz v = NaN ->
  np_dot RA u v = NaN.
Proof.
  unfold np_dot. cbn [np_add np_mul rounded].
  intros [H|[H|[H|[H|[H|H]]]]]; rewrite H;
    rewrite ?rr_mul_nan_r; cbn [rr_mul rr_add]; rewrite ?rr_add_nan_r;
    reflexivity.
Qed.

(** [int(np.floor(v))] succeeds exactly on the finite values. *)
Lemma py_int_floor (r : R) : py_int RA (np_floor RA (Fin r)) = OK (Zfloor r).
Proof. cbn [py_int np_floor rounded rr_floor rr_int]. now rewrite trunc_IZR. Qed.

Lemma py_int_floor_inv (v : np_float) (z : Z) :
  py_int RA (np_floor RA v) = OK z -> exists r, v = Fin r /\ z = Zfloor r.
Proof.
  destruct v; cbn [py_int np_floor rounded rr_floor rr_int]; try discriminate.
  rewrite trunc_IZR. intros [= <-]. now exists r.
Qed.

Lemma py_int_floor_error (v : np_float) (e : py_error) :
  py_int RA (np_floor RA v) = Raise e ->
  (v = NaN /\ e = ValueError) \/ ((v = PInf \/ v = NInf) /\ e = OverflowError).
Proof.
  destruct v; cbn [py_int np_floor rounded rr_floor rr_int]; try discriminate;
    intros [= <-]; auto.
Qed.

Lemma rounded_int_errors : int_errors RA.
Proof.
  intros v e. cbn [py_int rounded]. destruct v; cbn [rr_int]; try discriminate;
    intros [= <-]; auto.
Qed.

Lemma bin_index_inv (resolution : Z) (bin_size alpha beta : np_float) (i j : Z) :
  bin_index RA resolution bin_size alpha beta = OK (i, j) ->
  exists rf cf : R,
    row_coord RA resolution bin_size beta = Fin rf /\
    col_coord RA bin_size alpha = Fin cf /\
    i = Zfloor rf /\ j = Zfloor cf.
Proof.
  unfold bin_index. intros H.
  destruct (py_int RA (np_floor RA (row_coord RA resolution bin_size beta)))
    as [i'|] eqn:Hi; cbn [bind] in H; [|discriminate].
  destruct (py_int RA (np_floor RA (col_coord RA bin_size alpha)))
    as [j'|] eqn:Hj; cbn [bind] in H; [|discriminate].
  injection H as -> ->.
  apply py_int_floor_inv in Hi as (rf & Hrf & ->).
  apply py_int_floor_inv in Hj as (cf & Hcf & ->).
  now exists rf, cf.
Qed.

(** A division by zero never gives a finite value, and neither does a
    difference with a value that is not finite. *)
Lemma rr_div_zero (x : np_float) (v : R) : rr_div round x (Fin 0) <> Fin v.
Proof.
  destruct x; cbn [rr_div]; try discriminate.
  - destruct (Req_dec_T 0 0); [|lra]. unfold inf_signed. decide_R; discriminate.
  - decide_R; discriminate.
  - decide_R; discriminate.
Qed.

Lemma rr_sub_fin (x y : np_float) (v : R) :
  rr_sub round x y = Fin v -> exists a b, x = Fin a /\ y = Fin b.
Proof.
  destruct x, y; cbn [rr_sub rr_add rr_neg]; try discriminate. eauto.
Qed.

End RoundedFacts.

(** *** Consequences of the laws of [round] *)

Section RoundedLaws.

Variable round : R -> np_float.
Variable cosr : R -> R.
Hypothesis Hround : ieee_round round.

Local Notation "'RA'" := (rounded round cosr).

Lemma round_not_nan (r : R) : round r <> NaN.
Proof.
  intros H. pose proof (round_monotone round Hround r r (Rle_refl r)) as Hm.
  rewrite H in Hm. exact Hm.
Qed.

Lemma round_is (z : Z) (e : R) :
  (Z.abs z <= 2 ^ 53)%Z -> e = IZR z -> round e = Fin (IZR z).
Proof. intros Hz ->. now apply (round_int round Hround). Qed.

Lemma round_0 : round 0 = Fin 0.
Proof. apply (round_is 0); [vm_compute; discriminate|reflexivity]. Qed.

Lemma round_1 : round 1 = Fin 1.
Proof. apply (round_is 1); [vm_compute; discriminate|reflexivity]. Qed.

Lemma round_2 : round 2 = Fin 2.
Proof. apply (round_is 2); [vm_compute; discriminate|reflexivity]. Qed.

Lemma round_mono_fin (a b u v : R) :
  a <= b -> round a = Fin u -> round b = Fin v -> u <= v.
Proof.
  intros Hab Ha Hb. pose proof (round_monotone round Hround a b Hab) as Hm.
  now rewrite Ha, Hb in Hm.
Qed.

Lemma round_nonneg (r : R) : 0 <= r -> np_nonneg (round r).
Proof.
  intros Hr. pose proof (round_monotone round Hround 0 r Hr) as Hm.
  now rewrite round_0 in Hm.
Qed.

(** In [[0, 1]] rounding stays in [[0, 1]], within [eps64]. *)
Lemma round_unit (r : R) :
  0 <= r <= 1 ->
  exists v : R, round r = Fin v /\ 0 <= v <= 1 /\ - eps64 <= v - r <= eps64.
Proof.
  intros Hr.
  destruct (round_unit_error round Hround r ltac:(lra)) as (v & Hv & Herr).
  exists v. split; [exact Hv|]. split.
  - split.
    + exact (round_mono_fin 0 r 0 v (proj1 Hr) round_0 Hv).
    + exact (round_mono_fin r 1 v 1 (proj2 Hr) Hv round_1).
  - apply Rabs_bound in Herr. exact Herr.
Qed.

(** A finite result of an operation is representable. *)
Lemma rr_add_fixed (x y : np_float) (v : R) :
  rr_add round x y = Fin v -> round v = Fin v.
Proof.
  destruct x, y; cbn [rr_add]; try discriminate.
  apply (round_fixed round Hround).
Qed.

Lemma rr_sub_fixed (x y : np_float) (v : R) :
  rr_sub round x y = Fin v -> round v = Fin v.
Proof. apply rr_add_fixed. Qed.

Lemma rr_div_fixed (x y : np_float) (v : R) :
  rr_div round x y = Fin v -> round v = Fin v.
Proof.
  destruct x as [a| | |], y as [b| | |]; cbn [rr_div]; try discriminate.
  - destruct (Req_dec_T b 0).
    + unfold inf_signed. decide_R; discriminate.
    + apply (round_fixed round Hround).
  - intros [= <-]. exact round_0.
  - intros [= <-]. exact round_0.
  - decide_R; discriminate.
  - decide_R; discriminate.
Qed.

Lemma rr_of_int_floor (v : R) :
  round v = Fin v -> np_of_int RA (Zfloor v) = Fin (IZR (Zfloor v)).
Proof. apply (round_floor round Hround). Qed.

(** The fractional offset of a representable coordinate *)
Lemma offset_unit (v : R) :
  round v = Fin v ->
  exists a : R,
    np_sub RA (Fin v) (np_of_int RA (Zfloor v)) = Fin a /\
    0 <= a <= 1 /\ - eps64 <= a - (v - IZR (Zfloor v)) <= eps64.
Proof.
  intros Hv. rewrite rr_of_int_floor by exact Hv.
  cbn [np_sub rounded rr_sub rr_neg rr_add].
  pose proof (Zfloor_bound v) as Hb.
  destruct (round_unit (v + - IZR (Zfloor v)) ltac:(lra)) as (a & Ha & H01 & He).
  exists a. split; [exact Ha|]. split; [exact H01|]. lra.
Qed.

(** [1 - a] for [a] in [[0, 1]] *)
Lemma complement_unit (a : R) :
  0 <= a <= 1 ->
  exists c : R,
    np_sub RA (np_of_int RA 1) (Fin a) = Fin c /\
    0 <= c <= 1 /\ - eps64 <= c - (1 - a) <= eps64.
Proof.
  intros Ha. cbn [np_of_int rounded]. unfold rr_of_int. rewrite round_1.
  cbn [np_sub rounded rr_sub rr_neg rr_add].
  destruct (round_unit (1 + - a) ltac:(lra)) as (c & Hc & H01 & He).
  exists c. split; [exact Hc|]. split; [exact H01|]. lra.
Qed.

Lemma product_unit (a b : R) :
  0 <= a <= 1 -> 0 <= b <= 1 ->
  exists w : R,
    np_mul RA (Fin a) (Fin b) = Fin w /\
    0 <= w <= 1 /\ - eps64 <= w - a * b <= eps64.
Proof.
  intros Ha Hb. cbn [np_mul rounded rr_mul].
  assert (0 <= a * b <= 1) as Hab by nra.
  destruct (round_unit (a * b) Hab) as (w & Hw & H01 & He).
  exists w. auto.
Qed.

(** The four weights of lines 56-59 for computed bin indices: each is
    in [[0, 1]], and their sum is 1 up to the rounding of the six
    operations that produce them. *)
Lemma weights_rounded (resolution : Z) (bin_size alpha beta : np_float) (i j : Z) :
  bin_index RA resolution bin_size alpha beta = OK (i, j) ->
  exists w00 w10 w01 w11 : R,
    bilinear_weights RA resolution bin_size alpha beta i j =
      (Fin w00, Fin w10, Fin w01, Fin w11) /\
    (0 <= w00 <= 1 /\ 0 <= w10 <= 1 /\ 0 <= w01 <= 1 /\ 0 <= w11 <= 1) /\
    Rabs (w00 + w10 + w01 + w11 - 1) <= 7 * eps64.
Proof.
  intros Hidx.
  destruct (bin_index_inv round cosr _ _ _ _ _ _ Hidx)
    as (rf & cf & Hrow & Hcol & -> & ->).
  pose proof (rr_sub_fixed _ _ _ Hrow) as Hrf.
  pose proof (rr_div_fixed _ _ _ Hcol) as Hcf.
  unfold bilinear_weights. rewrite Hrow, Hcol.
  destruct (offset_unit cf Hcf) as (a & -> & Ha & Hea).
  destruct (offset_unit rf Hrf) as (b & -> & Hb & Heb).
  destruct (complement_unit a Ha) as (a' & -> & Ha' & Hea').
  destruct (complement_unit b Hb) as (b' & -> & Hb' & Heb').
  destruct (product_unit a' b' Ha' Hb') as (w00 & -> & H00 & He00).
  destruct (product_unit a b' Ha Hb') as (w10 & -> & H10 & He10).
  destruct (product_unit a' b Ha' Hb) as (w01 & -> & H01 & He01).
  destruct (product_unit a b Ha Hb) as (w11 & -> & H11 & He11).
  exists w00, w10, w01, w11. split; [reflexivity|]. split; [auto|].
  pose proof eps64_pos as Hpos.
  assert (Heps : eps64 <= 1) by (unfold eps64; lra).
  set (e1 := a' - (1 - a)) in *. set (e2 := b' - (1 - b)) in *.
  assert (Hprod : a' * b' + a * b' + a' * b + a * b = (1 + e1) * (1 + e2))
    by (unfold e1, e2; ring).
  assert (He12 : - eps64 <= e1 * e2 <= eps64).
  { assert (- (eps64 * eps64) <= e1 * e2 <= eps64 * eps64) by nra.
    assert (eps64 * eps64 <= eps64) by nra. lra. }
  apply Rabs_le.
  replace (w00 + w10 + w01 + w11 - 1)
    with ((w00 - a' * b') + (w10 - a * b') + (w01 - a' * b) + (w11 - a * b)
          + (e1 + e2 + e1 * e2))
    by (transitivity ((w00 - a' * b') + (w10 - a * b') + (w01 - a' * b)
                      + (w11 - a * b)
                      + ((a' * b' + a * b' + a' * b + a * b) - 1));
        [rewrite Hprod; ring | ring]).
  lra.
Qed.

(** *** The bin coordinates *)

Ltac round_const :=
  match goal with
  | |- context [round ?e] =>
      first
        [ rewrite (round_is 0 e) by (first [lia | lra])
        | rewrite (round_is 1 e) by (first [lia | lra])
        | rewrite (round_is 2 e) by (first [lia | lra])
        | rewrite (round_is 3 e) by (first [lia | lra])
        | rewrite (round_is (-1) e) by (first [lia | lra]) ]
  end.

Ltac round_eval :=
  repeat first
    [ progress cbn [np_add np_sub np_mul np_div np_sqrt np_floor np_lt np_of_int
                    py_int rounded rr_add rr_sub rr_neg rr_mul rr_div rr_sqrt
                    rr_floor rr_of_int vx vy vz fst snd]
    | progress unfold rr_of_int
    | rewrite sqrt_0
    | rewrite sqrt_1
    | round_const
    | match goal with
      | |- context [Rlt_dec ?a ?b] => destruct (Rlt_dec a b); [try lra|try lra]
      | |- context [Req_dec_T ?a ?b] => destruct (Req_dec_T a b); [try lra|try lra]
      end ].

(** [resolution / 2] *)
Lemma half_resolution (resolution : Z) :
  (Z.abs resolution <= 2 ^ 53)%Z ->
  np_div RA (np_of_int RA resolution) (np_of_int RA 2) = Fin (IZR resolution / 2).
Proof.
  intros Hres. cbn [np_div np_of_int rounded]. unfold rr_of_int.
  rewrite round_2, (round_int round Hround resolution Hres). cbn [rr_div].
  destruct (Req_dec_T 2 0); [lra|]. now apply (round_half round Hround).
Qed.

(** A zero numerator gives a zero quotient, unless the divisor is zero
    or [nan]. *)
Lemma rr_div_zero_num (y : np_float) :
  y <> Fin 0 -> y <> NaN -> rr_div round (Fin 0) y = Fin 0.
Proof.
  intros H0 Hnan. destruct y as [b| | |]; cbn [rr_div]; try reflexivity;
    [|congruence].
  destruct (Req_dec_T b 0) as [->|Hb]; [congruence|].
  apply (round_is 0); [lia|]. unfold Rdiv. ring.
Qed.

Lemma row_coord_zero (resolution : Z) (bin_size : np_float) :
  (Z.abs resolution <= 2 ^ 53)%Z -> bin_size <> Fin 0 -> bin_size <> NaN ->
  row_coord RA resolution bin_size (Fin 0) = Fin (IZR resolution / 2).
Proof.
  intros Hres H0 Hnan. unfold row_coord. rewrite half_resolution by exact Hres.
  cbn [np_div np_sub rounded]. rewrite rr_div_zero_num by assumption.
  cbn [rr_sub rr_neg rr_add].
  replace (IZR resolution / 2 + - 0) with (IZR resolution / 2) by lra.
  now apply (round_half round Hround).
Qed.

Lemma col_coord_zero (bin_size : np_float) :
  bin_size <> Fin 0 -> bin_size <> NaN ->
  col_coord RA bin_size (Fin 0) = Fin 0.
Proof. intros H0 Hnan. unfold col_coord. now apply rr_div_zero_num. Qed.

(** Division by a positive bin size is monotone, and subtraction from
    a fixed value antitone. *)
Lemma rr_div_monotone (x y : np_float) (b : R) :
  0 < b -> np_le x y -> np_le (rr_div round x (Fin b)) (rr_div round y (Fin b)).
Proof.
  intros Hb Hxy.
  destruct x as [a| | |], y as [a'| | |]; cbn [np_le] in Hxy; try contradiction;
    cbn [rr_div]; decide_R; cbn [np_le]; auto.
  - apply (round_monotone round Hround). unfold Rdiv.
    apply Rmult_le_compat_r; [|exact Hxy].
    apply Rlt_le, Rinv_0_lt_compat, Hb.
  - pose proof (round_not_nan (a / b)). destruct (round (a / b)); cbn; auto.
  - pose proof (round_not_nan (a' / b)). destruct (round (a' / b)); cbn; auto.
Qed.

Lemma rr_sub_antitone (c y1 y2 : np_float) (u1 u2 : R) :
  np_le y1 y2 ->
  rr_sub round c y1 = Fin u1 -> rr_sub round c y2 = Fin u2 -> u2 <= u1.
Proof.
  intros Hy H1 H2.
  destruct c as [h| | |], y1 as [a| | |], y2 as [a'| | |];
    cbn [rr_sub rr_neg rr_add] in H1, H2; try discriminate.
  cbn [np_le] in Hy.
  apply (round_mono_fin (h + - a') (h + - a)); [lra|assumption|assumption].
Qed.

(** The row index does not increase with [beta], and the column index
    does not decrease with [alpha], when the bin size is positive. *)
Lemma row_antitone (resolution : Z) (b : R) (beta1 beta2 : np_float) (i1 i2 : Z) :
  0 < b -> np_le beta1 beta2 ->
  py_int RA (np_floor RA (row_coord RA resolution (Fin b) beta1)) = OK i1 ->
  py_int RA (np_floor RA (row_coord RA resolution (Fin b) beta2)) = OK i2 ->
  (i2 <= i1)%Z.
Proof.
  intros Hb Hbeta H1 H2.
  apply py_int_floor_inv in H1 as (r1 & Hr1 & ->).
  apply py_int_floor_inv in H2 as (r2 & Hr2 & ->).
  apply Zfloor_mono. unfold row_coord in Hr1, Hr2.
  cbn [np_sub np_div rounded] in Hr1, Hr2.
  eapply rr_sub_antitone; [|exact Hr1|exact Hr2].
  now apply rr_div_monotone.
Qed.

Lemma col_monotone (b : R) (alpha1 alpha2 : np_float) (j1 j2 : Z) :
  0 < b -> np_le alpha1 alpha2 ->
  py_int RA (np_floor RA (col_coord RA (Fin b) alpha1)) = OK j1 ->
  py_int RA (np_floor RA (col_coord RA (Fin b) alpha2)) = OK j2 ->
  (j1 <= j2)%Z.
Proof.
  intros Hb Halpha H1 H2.
  apply py_int_floor_inv in H1 as (r1 & Hr1 & ->).
  apply py_int_floor_inv in H2 as (r2 & Hr2 & ->).
  apply Zfloor_mono. unfold col_coord in Hr1, Hr2.
  cbn [np_div rounded] in Hr1, Hr2.
  pose proof (rr_div_monotone alpha1 alpha2 b Hb Halpha) as Hm.
  now rewrite Hr1, Hr2 in Hm.
Qed.

Lemma row_index_zero (resolution : Z) (bin_size : np_float) :
  (Z.abs resolution <= 2 ^ 53)%Z -> bin_size <> Fin 0 -> bin_size <> NaN ->
  py_int RA (np_floor RA (row_coord RA resolution bin_size (Fin 0))) =
  OK (resolution / 2)%Z.
Proof.
  intros. rewrite row_coord_zero by assumption.
  now rewrite py_int_floor, Zfloor_half.
Qed.

Lemma col_index_zero (bin_size : np_float) :
  bin_size <> Fin 0 -> bin_size <> NaN ->
  py_int RA (np_floor RA (col_coord RA bin_size (Fin 0))) = OK 0%Z.
Proof.
  intros. rewrite col_coord_zero by assumption.
  rewrite py_int_floor. f_equal. apply (ZfloorZ 0).
Qed.

(** A computed quotient [beta / bin_size] that is a whole number [k]
    of bins puts the neighbour [k] rows above the centre row. *)
Lemma row_index_whole (resolution k : Z) (bin_size beta : np_float) :
  (Z.abs resolution <= 2 ^ 53)%Z -> (Z.abs (resolution - 2 * k) <= 2 ^ 53)%Z ->
  np_div RA beta bin_size = Fin (IZR k) ->
  py_int RA (np_floor RA (row_coord RA resolution bin_size beta)) =
  OK (resolution / 2 - k)%Z.
Proof.
  intros Hres Hk Hq. unfold row_coord. rewrite half_resolution by exact Hres.
  rewrite Hq. cbn [np_sub rounded rr_sub rr_neg rr_add].
  replace (IZR resolution / 2 + - IZR k) with (IZR (resolution - 2 * k) / 2)
    by (rewrite minus_IZR, mult_IZR; lra).
  rewrite (round_half round Hround _ Hk).
  rewrite py_int_floor, Zfloor_half. f_equal.
  replace (resolution - 2 * k)%Z with (resolution + (- k) * 2)%Z by lia.
  rewrite Z.div_add by lia. lia.
Qed.

(** *** The running example *)

Lemma example_sub : vec_sub RA (embed e_z) (embed origin) = embed e_z.
Proof.
  unfold vec_sub, embed, e_z, origin. cbn [rx ry rz]. round_eval. reflexivity.
Qed.

Lemma example_coords :
  spin_coords RA (embed origin) (embed e_z) (embed e_z) = (Fin 0, Fin 1).
Proof.
  unfold spin_coords. rewrite example_sub.
  unfold np_norm, np_square, np_dot, embed, e_z. cbn [rx ry rz].
  round_eval. reflexivity.
Qed.

Lemma example_row : row_coord RA 4 (Fin 1) (Fin 1) = Fin 1.
Proof.
  unfold row_coord. rewrite half_resolution by lia.
  round_eval. reflexivity.
Qed.

Lemma example_col : col_coord RA (Fin 1) (Fin 0) = Fin 0.
Proof. apply col_coord_zero; [intros [= H]; lra|discriminate]. Qed.

Lemma example_index : bin_index RA 4 (Fin 1) (Fin 0) (Fin 1) = OK (1%Z, 0%Z).
Proof.
  unfold bin_index. rewrite example_row, example_col, !py_int_floor.
  cbn [bind]. rewrite (ZfloorZ 1), (ZfloorZ 0). reflexivity.
Qed.

Lemma zeros_4 :
  zeros RA 4 = [[Fin 0; Fin 0; Fin 0; Fin 0]; [Fin 0; Fin 0; Fin 0; Fin 0];
                [Fin 0; Fin 0; Fin 0; Fin 0]; [Fin 0; Fin 0; Fin 0; Fin 0]].
Proof.
  unfold zeros. cbn [np_of_int rounded]. unfold rr_of_int. rewrite round_0.
  reflexivity.
Qed.

Lemma example_weights :
  bilinear_weights RA 4 (Fin 1) (Fin 0) (Fin 1) 1 0 = (Fin 1, Fin 0, Fin 0, Fin 0).
Proof.
  unfold bilinear_weights. rewrite example_row, example_col.
  round_eval. reflexivity.
Qed.

Lemma example_neighbor :
  bin_neighbor RA (embed origin) (embed e_z) (Fin 1) 4 (zeros RA 4) (embed e_z) =
  OK (example_grid (Fin 0) (Fin 1)).
Proof.
  rewrite bin_neighbor_unfold, example_coords. cbn [fst snd].
  rewrite example_index. cbn [bind].
  change (in_bounds 4 1 0) with true. cbn iota.
  rewrite example_weights, zeros_4. unfold accumulate.
  rewrite (grid_add_at RA _ 1 0 1 0) by reflexivity. cbn [bind alter_nth].
  rewrite (grid_add_at RA _ (1 + 1) 0 2 0) by reflexivity. cbn [bind alter_nth].
  rewrite (grid_add_at RA _ 1 (0 + 1) 1 1) by reflexivity. cbn [bind alter_nth].
  rewrite (grid_add_at RA _ (1 + 1) (0 + 1) 2 1) by reflexivity. cbn [alter_nth].
  round_eval. reflexivity.
Qed.

Lemma dot_e_z (n : rvec) : np_dot RA (embed e_z) (embed n) = round (rz n).
Proof.
  unfold np_dot, embed, e_z. cbn [rx ry rz vx vy vz np_add np_mul rounded rr_mul].
  rewrite (round_is 0 (0 * rx n)) by (first [lia|lra]).
  rewrite (round_is 0 (0 * ry n)) by (first [lia|lra]).
  cbn [rr_add]. rewrite (round_is 0 (0 + 0)) by (first [lia|lra]).
  replace (1 * rz n) with (rz n) by lra.
  destruct (round (rz n)) as [v| | |] eqn:Hv; cbn [rr_add]; try reflexivity.
  replace (0 + v) with v by lra. exact (round_fixed round Hround _ _ Hv).
Qed.

(** A normal whose third component is at least [-1], as that of a unit
    vector is, passes the angle test against [e_z] at the threshold
    [-1]. *)
Lemma example_accept (n_B : rvec) :
  -1 <= rz n_B ->
  np_lt RA (np_dot RA (embed e_z) (embed n_B)) (Fin (-1)) = false.
Proof.
  intros Hz. rewrite dot_e_z. cbn [np_lt rounded].
  pose proof (round_monotone round Hround (-1) (rz n_B) Hz) as Hm.
  rewrite (round_is (-1) (-1)) in Hm by (first [lia|lra]).
  destruct (round (rz n_B)) as [v| | |]; cbn [np_le] in Hm; try contradiction;
    cbn [rr_lt]; [|reflexivity].
  destruct (Rlt_dec v (-1)); [lra|reflexivity].
Qed.

Lemma example_run (n_B : rvec) (support_radius support_angle : np_float) :
  -1 <= rz n_B -> np_cos RA support_angle = Fin (-1) ->
  compute_spin_image_with_support_angle RA (embed origin, embed e_z)
    (mkcloud [embed e_z] [embed n_B]) support_radius (Fin 1) 4 support_angle =
  OK (example_grid (Fin 0) (Fin 1)).
Proof.
  intros Hz Hcos. unfold compute_spin_image_with_support_angle.
  rewrite np_zeros_ok by lia. cbn [bind fst snd points normals combine for_each].
  rewrite Hcos, loop_body_accept by (now apply example_accept).
  rewrite example_neighbor. reflexivity.
Qed.

(** *** The reference point as its own neighbour *)

Lemma self_sub (O : rvec) : vec_sub RA (embed O) (embed O) = embed origin.
Proof.
  unfold vec_sub, embed, origin. cbn [vx vy vz np_sub rounded rr_sub rr_neg rr_add].
  rewrite !(round_is 0) by (first [lia|lra]). reflexivity.
Qed.

Lemma dot_origin (n : rvec) : np_dot RA (embed n) (embed origin) = Fin 0.
Proof.
  unfold np_dot, embed, origin. cbn [rx ry rz vx vy vz np_add np_mul rounded rr_mul].
  rewrite !(round_is 0) by (first [lia|lra]). cbn [rr_add].
  rewrite !(round_is 0) by (first [lia|lra]). cbn [rr_add].
  rewrite !(round_is 0) by (first [lia|lra]). reflexivity.
Qed.

Lemma self_coords (O n_A : rvec) :
  spin_coords RA (embed O) (embed n_A) (embed O) = (Fin 0, Fin 0).
Proof.
  unfold spin_coords. rewrite self_sub. unfold np_norm, np_square.
  rewrite !dot_origin. round_eval. reflexivity.
Qed.

Lemma self_index (resolution : Z) (bin_size : np_float) :
  (Z.abs resolution <= 2 ^ 53)%Z -> bin_size <> Fin 0 -> bin_size <> NaN ->
  bin_index RA resolution bin_size (Fin 0) (Fin 0) = OK ((resolution / 2)%Z, 0%Z).
Proof.
  intros. unfold bin_index.
  rewrite row_index_zero, col_index_zero by assumption. reflexivity.
Qed.

Lemma self_weights (resolution : Z) (bin_size : np_float) :
  (0 <= resolution <= 2 ^ 53)%Z -> bin_size <> Fin 0 -> bin_size <> NaN ->
  bilinear_weights RA resolution bin_size (Fin 0) (Fin 0) (resolution / 2) 0 =
  (Fin (1 - IZR (resolution mod 2) / 2), Fin 0,
   Fin (IZR (resolution mod 2) / 2), Fin 0).
Proof.
  intros Hres H0 Hnan. unfold bilinear_weights.
  rewrite row_coord_zero, col_coord_zero by (assumption || lia).
  pose proof (Z.div_mod resolution 2 ltac:(lia)) as Hdm.
  pose proof (Z.mod_pos_bound resolution 2 ltac:(lia)) as Hm.
  cbn [np_of_int rounded]. unfold rr_of_int.
  rewrite round_0, round_1.
  rewrite (round_int round Hround (resolution / 2)) by lia.
  cbn [np_sub np_mul rounded rr_sub rr_neg rr_add].
  rewrite (round_is 0 (0 + - 0)) by (first [lia|lra]).
  replace (IZR resolution / 2 + - IZR (resolution / 2))
    with (IZR (resolution mod 2) / 2) by (rewrite <- frac_half; lra).
  rewrite (round_half round Hround (resolution mod 2)) by lia.
  cbn [rr_neg rr_add].
  rewrite (round_is 1 (1 + - 0)) by (first [lia|lra]).
  replace (1 + - (IZR (resolution mod 2) / 2))
    with (IZR (2 - resolution mod 2) / 2) by (rewrite minus_IZR; lra).
  rewrite (round_half round Hround (2 - resolution mod 2)) by lia.
  cbn [rr_mul].
  replace (1 * (IZR (2 - resolution mod 2) / 2))
    with (IZR (2 - resolution mod 2) / 2) by lra.
  replace (0 * (IZR (2 - resolution mod 2) / 2)) with 0 by lra.
  replace (1 * (IZR (resolution mod 2) / 2))
    with (IZR (resolution mod 2) / 2) by lra.
  replace (0 * (IZR (resolution mod 2) / 2)) with 0 by lra.
  rewrite round_0, (round_half round Hround (resolution mod 2)) by lia.
  rewrite (round_half round Hround (2 - resolution mod 2)) by lia.
  rewrite minus_IZR.
  replace ((2 - IZR (resolution mod 2)) / 2)
    with (1 - IZR (resolution mod 2) / 2) by lra.
  reflexivity.
Qed.

(** *** Cells are never negative *)

Lemma rr_add_nonneg (c w : np_float) :
  np_nonneg c -> np_nonneg w -> np_nonneg (rr_add round c w).
Proof.
  unfold np_nonneg.
  destruct c as [a| | |], w as [b| | |]; cbn [np_le rr_add]; try contradiction;
    auto.
  intros Ha Hb. apply round_nonneg. lra.
Qed.

Lemma grid_add_Forall (P : np_float -> Prop) (SI SI' : grid np_float)
  (i j : Z) (w : np_float) :
  (forall v, P v -> P (np_add RA v w)) ->
  Forall (Forall P) SI -> grid_add RA SI i j w = OK SI' -> Forall (Forall P) SI'.
Proof.
  intros Hw HSI. unfold grid_add.
  destruct (np_index (length SI) i) as [r|]; cbn [bind]; [|discriminate].
  destruct (np_index (length (nth r SI [])) j) as [c|]; cbn [bind]; [|discriminate].
  intros [= <-]. apply alter_nth_Forall; [|exact HSI].
  intros row Hrow. now apply alter_nth_Forall.
Qed.

Lemma accumulate_nonneg (SI SI' : grid np_float) (i j : Z)
  (w00 w10 w01 w11 : np_float) :
  np_nonneg w00 -> np_nonneg w10 -> np_nonneg w01 -> np_nonneg w11 ->
  Forall (Forall np_nonneg) SI ->
  accumulate RA SI i j (w00, w10, w01, w11) = OK SI' ->
  Forall (Forall np_nonneg) SI'.
Proof.
  intros H00 H10 H01 H11 HSI. unfold accumulate.
  destruct (grid_add RA SI i j w00) as [S1|] eqn:E1; cbn [bind]; [|discriminate].
  destruct (grid_add RA S1 (i + 1) j w10) as [S2|] eqn:E2; cbn [bind];
    [|discriminate].
  destruct (grid_add RA S2 i (j + 1) w01) as [S3|] eqn:E3; cbn [bind];
    [|discriminate].
  intros E4.
  assert (Hadd : forall w, np_nonneg w ->
                           forall v, np_nonneg v -> np_nonneg (np_add RA v w))
    by (intros w Hw v Hv; now apply rr_add_nonneg).
  eapply grid_add_Forall in E1; [|now apply Hadd|exact HSI].
  eapply grid_add_Forall in E2; [|now apply Hadd|exact E1].
  eapply grid_add_Forall in E3; [|now apply Hadd|exact E2].
  eapply grid_add_Forall in E4; [exact E4|now apply Hadd|exact E3].
Qed.

Lemma loop_body_nonneg (O n_A : vec3 np_float) (bin_size : np_float)
  (resolution : Z) (cos_threshold : np_float) (SI SI' : grid np_float)
  (p : vec3 np_float * vec3 np_float) :
  Forall (Forall np_nonneg) SI ->
  loop_body RA O n_A bin_size resolution cos_threshold SI p = OK SI' ->
  Forall (Forall np_nonneg) SI'.
Proof.
  intros HSI. destruct p as [x n_B]. unfold loop_body.
  destruct (np_lt RA _ _); [now intros [= <-]|].
  rewrite bin_neighbor_unfold.
  destruct (bin_index RA resolution bin_size _ _) as [[i j]|] eqn:Hidx;
    cbn [bind]; [|discriminate].
  destruct (in_bounds resolution i j); [|now intros [= <-]].
  destruct (weights_rounded _ _ _ _ _ _ Hidx)
    as (w00 & w10 & w01 & w11 & -> & (H00 & H10 & H01 & H11) & _).
  apply accumulate_nonneg; try exact HSI; unfold np_nonneg; cbn [np_le]; lra.
Qed.

Lemma for_each_nonneg (O n_A : vec3 np_float) (bin_size : np_float)
  (resolution : Z) (cos_threshold : np_float)
  (l : list (vec3 np_float * vec3 np_float)) (SI SI' : grid np_float) :
  Forall (Forall np_nonneg) SI ->
  for_each (loop_body RA O n_A bin_size resolution cos_threshold) l SI = OK SI' ->
  Forall (Forall np_nonneg) SI'.
Proof.
  revert SI. induction l as [|p l IH]; intros SI HSI; cbn [for_each].
  - now intros [= <-].
  - destruct (loop_body RA O n_A bin_size resolution cos_threshold SI p)
      as [S1|] eqn:Hstep; cbn [bind]; [|discriminate].
    apply IH. eapply loop_body_nonneg; eassumption.
Qed.

(** *** The radial coordinate *)

Lemma alpha_of_radicand (O n_A x : vec3 np_float) :
  fst (spin_coords RA O n_A x) = np_sqrt RA (radicand RA O n_A x).
Proof. reflexivity. Qed.

Lemma sqrt_nonneg_radicand (v : R) :
  0 <= v ->
  np_sqrt RA (Fin v) = round (sqrt v) /\ np_nonneg (np_sqrt RA (Fin v)).
Proof.
  intros Hv. cbn [np_sqrt rounded rr_sqrt].
  destruct (Rlt_dec v 0); [lra|]. split; [reflexivity|].
  apply round_nonneg, sqrt_pos.
Qed.

(** *** The claims about the numbers *)

(** C1. A neighbour that passed the angle test gets the bin indices
    [i = int(floor(resolution / 2 - beta / bin_size))] and
    [j = int(floor(alpha / bin_size))], with [beta = dot(n_A, x - O)],
    each operation rounded.  [beta = 0] gives the row [resolution / 2]
    (rounded down); with a positive bin size the row does not increase
    when [beta] increases, and a quotient [beta / bin_size] of [k]
    whole bins gives the row [resolution / 2 - k]; [alpha = 0] gives
    the column 0, and the column is never negative and does not
    decrease when [alpha] increases. *)
Theorem bin_index_mapping (O n_A x : vec3 np_float) (bin_size : np_float)
  (resolution : Z) (SI : grid np_float) :
  bin_neighbor RA O n_A bin_size resolution SI x =
    ('(i, j) <- bin_index RA resolution bin_size (fst (spin_coords RA O n_A x))
                          (snd (spin_coords RA O n_A x)) ;;
     if in_bounds resolution i j
     then accumulate RA SI i j
            (bilinear_weights RA resolution bin_size (fst (spin_coords RA O n_A x))
               (snd (spin_coords RA O n_A x)) i j)
     else OK SI) /\
  snd (spin_coords RA O n_A x) = np_dot RA n_A (vec_sub RA x O) /\
  (forall alpha beta : np_float,
      bin_index RA resolution bin_size alpha beta =
      (i <- py_int RA
              (np_floor RA
                 (np_sub RA (np_div RA (np_of_int RA resolution) (np_of_int RA 2))
                            (np_div RA beta bin_size))) ;;
       j <- py_int RA (np_floor RA (np_div RA alpha bin_size)) ;;
       OK (i, j))) /\
  (forall (alpha : np_float) (j : Z),
      (Z.abs resolution <= 2 ^ 53)%Z -> bin_size <> Fin 0 -> bin_size <> NaN ->
      py_int RA (np_floor RA (col_coord RA bin_size alpha)) = OK j ->
      bin_index RA resolution bin_size alpha (Fin 0) = OK ((resolution / 2)%Z, j)) /\
  (forall (b : R) (alpha1 alpha2 beta1 beta2 : np_float) (i1 j1 i2 j2 : Z),
      bin_size = Fin b -> 0 < b -> np_le beta1 beta2 ->
      bin_index RA resolution bin_size alpha1 beta1 = OK (i1, j1) ->
      bin_index RA resolution bin_size alpha2 beta2 = OK (i2, j2) ->
      (i2 <= i1)%Z) /\
  (forall (alpha beta : np_float) (k j : Z),
      (Z.abs resolution <= 2 ^ 53)%Z -> (Z.abs (resolution - 2 * k) <= 2 ^ 53)%Z ->
      np_div RA beta bin_size = Fin (IZR k) ->
      py_int RA (np_floor RA (col_coord RA bin_size alpha)) = OK j ->
      bin_index RA resolution bin_size alpha beta = OK ((resolution / 2 - k)%Z, j)) /\
  (forall (beta : np_float) (i : Z),
      bin_size <> Fin 0 -> bin_size <> NaN ->
      py_int RA (np_floor RA (row_coord RA resolution bin_size beta)) = OK i ->
      bin_index RA resolution bin_size (Fin 0) beta = OK (i, 0%Z)) /\
  (forall (b : R) (alpha beta : np_float) (i j : Z),
      bin_size = Fin b -> 0 < b -> np_nonneg alpha ->
      bin_index RA resolution bin_size alpha beta = OK (i, j) ->
      (0 <= j)%Z) /\
  (forall (b : R) (alpha1 alpha2 beta1 beta2 : np_float) (i1 j1 i2 j2 : Z),
      bin_size = Fin b -> 0 < b -> np_le alpha1 alpha2 ->
      bin_index RA resolution bin_size alpha1 beta1 = OK (i1, j1) ->
      bin_index RA resolution bin_size alpha2 beta2 = OK (i2, j2) ->
      (j1 <= j2)%Z).
Proof.
  assert (Hsplit : forall alpha beta i j,
             bin_index RA resolution bin_size alpha beta = OK (i, j) ->
             py_int RA (np_floor RA (row_coord RA resolution bin_size beta)) = OK i /\
             py_int RA (np_floor RA (col_coord RA bin_size alpha)) = OK j).
  { intros alpha beta i j. unfold bin_index.
    destruct (py_int RA (np_floor RA (row_coord RA resolution bin_size beta)));
      cbn [bind]; [|discriminate].
    destruct (py_int RA (np_floor RA (col_coord RA bin_size alpha)));
      cbn [bind]; [|discriminate].
    now intros [= -> ->]. }
  split; [apply bin_neighbor_unfold|].
  split; [reflexivity|].
  split; [reflexivity|].
  split.
  { intros alpha j Hres H0 Hnan Hj. unfold bin_index.
    rewrite row_index_zero by assumption. cbn [bind]. now rewrite Hj. }
  split.
  { intros b alpha1 alpha2 beta1 beta2 i1 j1 i2 j2 -> Hb Hbeta H1 H2.
    apply Hsplit in H1 as [H1 _]. apply Hsplit in H2 as [H2 _].
    exact (row_antitone resolution b beta1 beta2 i1 i2 Hb Hbeta H1 H2). }
  split.
  { intros alpha beta k j Hres Hk Hq Hj. unfold bin_index.
    rewrite (row_index_whole resolution k) by assumption. cbn [bind].
    now rewrite Hj. }
  split.
  { intros beta i H0 Hnan Hi. unfold bin_index. rewrite Hi. cbn [bind].
    now rewrite col_index_zero by assumption. }
  split.
  { intros b alpha beta i j -> Hb Halpha Hidx.
    apply Hsplit in Hidx as [_ Hj].
    assert (Hb0 : Fin b <> Fin 0) by (intros [= ->]; lra).
    exact (col_monotone b (Fin 0) alpha 0 j Hb Halpha
             (col_index_zero (Fin b) Hb0 ltac:(discriminate)) Hj). }
  intros b alpha1 alpha2 beta1 beta2 i1 j1 i2 j2 -> Hb Halpha H1 H2.
  apply Hsplit in H1 as [_ H1]. apply Hsplit in H2 as [_ H2].
  exact (col_monotone b alpha1 alpha2 j1 j2 Hb Halpha H1 H2).
Qed.

(** C2, as the code has it.  For a neighbour accepted by the angle test
    and the bounds check, the four values added to the bins [(i, j)],
    [(i+1, j)], [(i, j+1)] and [(i+1, j+1)] are each in [[0, 1]], and
    their sum differs from 1 by at most [7 * 2^-53], which is below
    [1e-9]: it is 1 up to rounding, not exactly. *)
Theorem bilinear_mass_conservation (O n_A : vec3 np_float) (bin_size : np_float)
  (resolution : Z) (cos_threshold : np_float) (SI : grid np_float)
  (x n_B : vec3 np_float) (i j : Z) :
  np_lt RA (np_dot RA n_A n_B) cos_threshold = false ->
  bin_index RA resolution bin_size (fst (spin_coords RA O n_A x))
            (snd (spin_coords RA O n_A x)) = OK (i, j) ->
  in_bounds resolution i j = true ->
  exists w00 w10 w01 w11 : R,
    loop_body RA O n_A bin_size resolution cos_threshold SI (x, n_B) =
    (SI <- grid_add RA SI i j (Fin w00) ;;
     SI <- grid_add RA SI (i + 1) j (Fin w10) ;;
     SI <- grid_add RA SI i (j + 1) (Fin w01) ;;
     grid_add RA SI (i + 1) (j + 1) (Fin w11)) /\
    (0 <= w00 <= 1 /\ 0 <= w10 <= 1 /\ 0 <= w01 <= 1 /\ 0 <= w11 <= 1) /\
    Rabs (w00 + w10 + w01 + w11 - 1) <= 7 * eps64 /\
    7 * eps64 < / 1000000000.
Proof.
  intros Hpass Hidx Hb.
  destruct (weights_rounded _ _ _ _ _ _ Hidx)
    as (w00 & w10 & w01 & w11 & Hw & H01 & Hsum).
  exists w00, w10, w01, w11.
  split; [|split; [exact H01|split; [exact Hsum|unfold eps64; lra]]].
  rewrite loop_body_accept by exact Hpass.
  rewrite bin_neighbor_unfold, Hidx. cbn [bind]. rewrite Hb, Hw. reflexivity.
Qed.

(** C4, as the code has it.  [alpha] is the square root of the computed
    [|d|^2 - beta^2], taken without a clamp: a computed difference that
    is finite and not negative gives a finite or infinite [alpha] that
    is not negative; a negative one, which rounding produces for
    neighbours on the axis of the normal, gives [nan], and the
    conversion of a bin index then raises. *)
Theorem alpha_root_of_radicand (O n_A x : vec3 np_float) :
  fst (spin_coords RA O n_A x) = np_sqrt RA (radicand RA O n_A x) /\
  (forall v : R,
      radicand RA O n_A x = Fin v -> 0 <= v ->
      fst (spin_coords RA O n_A x) = round (sqrt v) /\
      np_nonneg (fst (spin_coords RA O n_A x))) /\
  (forall v : R,
      radicand RA O n_A x = Fin v -> v < 0 ->
      fst (spin_coords RA O n_A x) = NaN) /\
  (fst (spin_coords RA O n_A x) = NaN ->
   forall (bin_size : np_float) (resolution : Z) (SI : grid np_float),
   exists e : py_error,
     bin_neighbor RA O n_A bin_size resolution SI x = Raise e /\
     (e = ValueError \/ e = OverflowError)).
Proof.
  split; [reflexivity|]. split; [|split].
  - intros v Hv Hpos. rewrite alpha_of_radicand, Hv.
    now apply sqrt_nonneg_radicand.
  - intros v Hv Hneg. rewrite alpha_of_radicand, Hv.
    cbn [np_sqrt rounded rr_sqrt]. destruct (Rlt_dec v 0); [reflexivity|lra].
  - intros Hnan bin_size resolution SI. rewrite bin_neighbor_unfold, Hnan.
    unfold bin_index.
    destruct (py_int RA (np_floor RA (row_coord RA resolution bin_size
                                        (snd (spin_coords RA O n_A x)))))
      as [i|e] eqn:Hi; cbn [bind].
    + exists ValueError. split; [reflexivity|now left].
    + exists e. split; [reflexivity|]. eapply rounded_int_errors, Hi.
Qed.

(** X3. A grid that the function returns holds no negative cell and no
    [nan]: the weights are products of values in [[0, 1]], and rounding
    is monotone. *)
Theorem cells_nonneg (oriented_point : vec3 np_float * vec3 np_float)
  (chunk : point_cloud np_float) (support_radius bin_size : np_float)
  (resolution : Z) (support_angle : np_float) (SI : grid np_float) :
  compute_spin_image_with_support_angle RA oriented_point chunk support_radius
    bin_size resolution support_angle = OK SI ->
  Forall (Forall np_nonneg) SI.
Proof.
  unfold compute_spin_image_with_support_angle, np_zeros.
  destruct (resolution <? 0)%Z; cbn [bind]; [discriminate|].
  apply for_each_nonneg.
  eapply Forall_impl; [|apply zeros_zero]. intros row Hrow.
  eapply Forall_impl; [|exact Hrow]. intros v ->.
  cbn [np_of_int rounded]. unfold rr_of_int, np_nonneg. rewrite round_0.
  cbn [np_le]. lra.
Qed.

(** X10. The reference point as its own neighbour, when its normal
    passes the angle test: [alpha = beta = 0], the bin is
    [(resolution / 2, 0)], and the weights are [(1, 0, 0, 0)] for an
    even resolution and [(1/2, 0, 1/2, 0)] for an odd one, without
    rounding error, for every finite reference point and normal and
    every bin size other than 0 and [nan]. *)
Theorem self_point_deposit (O n_A : rvec) (bin_size : np_float) (resolution : Z)
  (cos_threshold : np_float) (SI : grid np_float) (n_B : vec3 np_float) :
  (3 <= resolution <= 2 ^ 53)%Z -> bin_size <> Fin 0 -> bin_size <> NaN ->
  np_lt RA (np_dot RA (embed n_A) n_B) cos_threshold = false ->
  spin_coords RA (embed O) (embed n_A) (embed O) = (Fin 0, Fin 0) /\
  loop_body RA (embed O) (embed n_A) bin_size resolution cos_threshold SI
    (embed O, n_B) =
  accumulate RA SI (resolution / 2) 0
    (Fin (1 - IZR (resolution mod 2) / 2), Fin 0,
     Fin (IZR (resolution mod 2) / 2), Fin 0).
Proof.
  intros Hres H0 Hnan Hpass. split; [apply self_coords|].
  rewrite loop_body_accept by exact Hpass.
  rewrite bin_neighbor_unfold, self_coords. cbn [fst snd].
  rewrite self_index by (assumption || lia). cbn [bind].
  assert (Hb : in_bounds resolution (resolution / 2) 0 = true).
  { apply in_bounds_spec.
    pose proof (Z.div_mod resolution 2 ltac:(lia)).
    pose proof (Z.mod_pos_bound resolution 2 ltac:(lia)). lia. }
  rewrite Hb, self_weights by (assumption || lia). reflexivity.
Qed.

End RoundedLaws.

Lemma unit_vec_bound (n : rvec) : unit_vec n -> -1 <= rz n.
Proof.
  unfold unit_vec, rdot. intros H.
  pose proof (Rle_0_sqr (rx n)). pose proof (Rle_0_sqr (ry n)).
  pose proof (Rle_0_sqr (rz n + 1)). unfold Rsqr in *. nra.
Qed.

(** ** Zero bin size, [nan] inputs *)

Section RoundedSpecial.

Variable round : R -> np_float.
Variable cosr : R -> R.

Local Notation "'RA'" := (rounded round cosr).

Lemma bin_neighbor_zero_bin_size (O n_A x : vec3 np_float) (resolution : Z)
  (SI : grid np_float) :
  exists e : py_error,
    bin_neighbor RA O n_A (Fin 0) resolution SI x = Raise e /\
    (e = ValueError \/ e = OverflowError).
Proof.
  rewrite bin_neighbor_unfold. unfold bin_index.
  destruct (py_int RA (np_floor RA (row_coord RA resolution (Fin 0)
                                      (snd (spin_coords RA O n_A x)))))
    as [i|e] eqn:Hi; cbn [bind].
  - apply py_int_floor_inv in Hi as (r & Hr & _). unfold row_coord in Hr.
    apply rr_sub_fin in Hr as (a & b & _ & Hb).
    now apply rr_div_zero in Hb.
  - exists e. split; [reflexivity|]. eapply rounded_int_errors, Hi.
Qed.

Lemma for_each_zero_bin_size (O n_A : vec3 np_float) (resolution : Z)
  (cos_threshold : np_float) (l : list (vec3 np_float * vec3 np_float)) :
  forall SI : grid np_float,
    Exists (fun p => np_lt RA (np_dot RA n_A (snd p)) cos_threshold = false) l ->
    exists e : py_error,
      for_each (loop_body RA O n_A (Fin 0) resolution cos_threshold) l SI = Raise e /\
      (e = ValueError \/ e = OverflowError).
Proof.
  induction l as [|[x n_B] l IH]; intros SI Hex; [inversion Hex|].
  cbn [for_each].
  destruct (np_lt RA (np_dot RA n_A n_B) cos_threshold) eqn:Hlt.
  - rewrite loop_body_skip by exact Hlt. cbn [bind]. apply IH.
    inversion Hex as [? ? Hp|? ? Hl]; subst; [|exact Hl].
    cbn [snd] in Hp. congruence.
  - rewrite loop_body_accept by exact Hlt.
    destruct (bin_neighbor_zero_bin_size O n_A x resolution SI) as (e & -> & He).
    exists e. split; [reflexivity|exact He].
Qed.

(** X11. A bin size of zero is not rejected.  The call fails as soon as
    one neighbour passes the angle test, with [ValueError] or
    [OverflowError] from the conversion of an infinite or undefined bin
    coordinate, whatever the positions and normals; if no neighbour
    passes, the zero grid is returned. *)
Theorem zero_bin_size (oriented_point : vec3 np_float * vec3 np_float)
  (chunk : point_cloud np_float) (support_radius : np_float) (resolution : Z)
  (support_angle : np_float) :
  (0 <= resolution)%Z ->
  (Exists (fun p => np_lt RA (np_dot RA (snd oriented_point) (snd p))
                      (np_cos RA support_angle) = false)
          (combine (points chunk) (normals chunk)) ->
   exists e : py_error,
     compute_spin_image_with_support_angle RA oriented_point chunk support_radius
       (Fin 0) resolution support_angle = Raise e /\
     (e = ValueError \/ e = OverflowError)) /\
  (Forall (fun p => np_lt RA (np_dot RA (snd oriented_point) (snd p))
                      (np_cos RA support_angle) = true)
          (combine (points chunk) (normals chunk)) ->
   compute_spin_image_with_support_angle RA oriented_point chunk support_radius
     (Fin 0) resolution support_angle = OK (zeros RA resolution)).
Proof.
  intros Hres. unfold compute_spin_image_with_support_angle.
  rewrite np_zeros_ok by exact Hres. cbn [bind]. split.
  - intros Hex. now apply for_each_zero_bin_size.
  - intros Hall. apply for_each_rejected.
    eapply Forall_impl; [|exact Hall]. intros p Hp. now left.
Qed.

(** X14. The angle test lets through what it cannot compare.  A
    neighbour is handed to the binning, whatever its direction, when a
    component of its normal or of the reference normal is [nan], and
    every neighbour is when the support angle is infinite or [nan]. *)
Theorem angle_test_bypassed (O n_A : vec3 np_float) (bin_size : np_float)
  (resolution : Z) (support_angle : np_float) (SI : grid np_float)
  (x n_B : vec3 np_float) :
  vx n_A = NaN \/ vy n_A = NaN \/ vz n_A = NaN \/
  vx n_B = NaN \/ vy n_B = NaN \/ vz n_B = NaN \/
  support_angle = PInf \/ support_angle = NInf \/ support_angle = NaN ->
  loop_body RA O n_A bin_size resolution (np_cos RA support_angle) SI (x, n_B) =
  bin_neighbor RA O n_A bin_size resolution SI x.
Proof.
  intros H. apply loop_body_accept.
  destruct H as [H|[H|[H|[H|[H|[H|H]]]]]];
    try (rewrite rr_dot_nan by tauto; reflexivity).
  cbn [np_lt np_cos rounded].
  destruct H as [->|[->| ->]]; apply rr_lt_nan_r.
Qed.

(** X19. A [nan] coordinate in the position of a neighbour, or of the
    reference point, is not filtered out: if the neighbour passes the
    angle test, [beta] is [nan] and the conversion of the row on line 47
    raises [ValueError], whatever the other inputs. *)
Theorem nan_position_raises (O n_A : vec3 np_float) (bin_size : np_float)
  (resolution : Z) (cos_threshold : np_float) (SI : grid np_float)
  (x n_B : vec3 np_float) :
  vx x = NaN \/ vy x = NaN \/ vz x = NaN \/
  vx O = NaN \/ vy O = NaN \/ vz O = NaN ->
  np_lt RA (np_dot RA n_A n_B) cos_threshold = false ->
  snd (spin_coords RA O n_A x) = NaN /\
  loop_body RA O n_A bin_size resolution cos_threshold SI (x, n_B) =
  Raise ValueError.
Proof.
  intros Hnan Hpass.
  assert (Hbeta : np_dot RA n_A (vec_sub RA x O) = NaN).
  { apply rr_dot_nan. right. right. right. unfold vec_sub.
    cbn [vx vy vz np_sub rounded].
    destruct Hnan as [H|[H|[H|[H|[H|H]]]]]; rewrite H;
      rewrite ?rr_sub_nan_r; auto. }
  split; [exact Hbeta|].
  rewrite loop_body_accept by assumption. rewrite bin_neighbor_unfold.
  unfold spin_coords. cbn [fst snd]. rewrite Hbeta.
  unfold bin_index, row_coord. cbn [np_sub np_div rounded rr_div].
  rewrite rr_sub_nan_r. reflexivity.
Qed.

End RoundedSpecial.

(** ** Control flow: claims that hold for every arithmetic *)

Section GenericClaims.

Context {F : Type} (A : arith F).

Lemma loop_body_small (O n_A : vec3 F) (bin_size : F) (resolution : Z)
  (cos_threshold : F) (SI SI' : grid F) (p : vec3 F * vec3 F) :
  (resolution <= 1)%Z ->
  loop_body A O n_A bin_size resolution cos_threshold SI p = OK SI' -> SI' = SI.
Proof.
  intros Hres. destruct p as [x n_B]. unfold loop_body.
  destruct (np_lt A _ _); [congruence|]. rewrite bin_neighbor_unfold.
  destruct (bin_index A _ _ _ _) as [[i j]|e]; cbn [bind]; [|discriminate].
  rewrite in_bounds_small by assumption. congruence.
Qed.

Lemma loop_body_error (O n_A : vec3 F) (bin_size : F) (resolution : Z)
  (cos_threshold : F) (SI : grid F) (p : vec3 F * vec3 F) (e : py_error) :
  shaped resolution SI ->
  loop_body A O n_A bin_size resolution cos_threshold SI p = Raise e ->
  np_lt A (np_dot A n_A (snd p)) cos_threshold = false /\
  bin_index A resolution bin_size (fst (spin_coords A O n_A (fst p)))
            (snd (spin_coords A O n_A (fst p))) = Raise e.
Proof.
  intros HSI. destruct p as [x n_B]. unfold loop_body. cbn [fst snd].
  destruct (np_lt A _ _); [discriminate|]. rewrite bin_neighbor_unfold.
  destruct (bin_index A _ _ _ _) as [[i j]|e'] eqn:Hidx; cbn [bind].
  - destruct (in_bounds resolution i j) eqn:Hb; [|discriminate].
    destruct (accumulate_shaped A resolution SI i j
                (bilinear_weights A resolution bin_size
                   (fst (spin_coords A O n_A x)) (snd (spin_coords A O n_A x)) i j)
                HSI Hb) as (SI' & -> & _).
    discriminate.
  - intros [= ->]. auto.
Qed.

Lemma loop_body_shaped (O n_A : vec3 F) (bin_size : F) (resolution : Z)
  (cos_threshold : F) (SI SI' : grid F) (p : vec3 F * vec3 F) :
  shaped resolution SI ->
  loop_body A O n_A bin_size resolution cos_threshold SI p = OK SI' ->
  shaped resolution SI'.
Proof.
  intros HSI. destruct p as [x n_B]. unfold loop_body.
  destruct (np_lt A _ _); [now intros [= <-]|]. rewrite bin_neighbor_unfold.
  destruct (bin_index A _ _ _ _) as [[i j]|e'] eqn:Hidx; cbn [bind];
    [|discriminate].
  destruct (in_bounds resolution i j) eqn:Hb; [|now intros [= <-]].
  destruct (accumulate_shaped A resolution SI i j
              (bilinear_weights A resolution bin_size
                 (fst (spin_coords A O n_A x)) (snd (spin_coords A O n_A x)) i j)
              HSI Hb) as (S1 & -> & HS1).
  now intros [= <-].
Qed.

Lemma for_each_error_source (O n_A : vec3 F) (bin_size : F) (resolution : Z)
  (cos_threshold : F) (l : list (vec3 F * vec3 F)) (SI : grid F) (e : py_error) :
  shaped resolution SI ->
  for_each (loop_body A O n_A bin_size resolution cos_threshold) l SI = Raise e ->
  Exists (fun p =>
            np_lt A (np_dot A n_A (snd p)) cos_threshold = false /\
            bin_index A resolution bin_size (fst (spin_coords A O n_A (fst p)))
                      (snd (spin_coords A O n_A (fst p))) = Raise e) l.
Proof.
  revert SI. induction l as [|p l IH]; intros SI HSI Hrun; [discriminate|].
  cbn [for_each] in Hrun.
  destruct (loop_body A O n_A bin_size resolution cos_threshold SI p)
    as [S1|e'] eqn:Hstep; cbn [bind] in Hrun.
  - apply Exists_cons_tl. apply (IH S1); [|exact Hrun].
    eapply loop_body_shaped; eassumption.
  - injection Hrun as ->. apply Exists_cons_hd.
    eapply loop_body_error; eassumption.
Qed.

(** C3, as the code has it.  Nothing is validated and there is no
    [InvalidConfig] or [InvalidInput].  A call fails with [ValueError]
    when the resolution is negative, and otherwise only with
    [ValueError] or [OverflowError], raised by the conversion of a bin
    coordinate that is not finite, for a neighbour that passed the
    angle test.  When every paired neighbour is rejected by the angle
    test or the bounds check, in particular when there is none, the
    zero grid is returned whatever the bin size, the support angle and
    the reference normal are. *)
Theorem build_without_validation (oriented_point : vec3 F * vec3 F)
  (chunk : point_cloud F) (support_radius bin_size : F) (resolution : Z)
  (support_angle : F) :
  int_errors A ->
  ((resolution < 0)%Z ->
   compute_spin_image_with_support_angle A oriented_point chunk support_radius
     bin_size resolution support_angle = Raise ValueError) /\
  (forall e : py_error,
      compute_spin_image_with_support_angle A oriented_point chunk support_radius
        bin_size resolution support_angle = Raise e ->
      e = ValueError \/ e = OverflowError) /\
  (forall e : py_error,
      (0 <= resolution)%Z ->
      compute_spin_image_with_support_angle A oriented_point chunk support_radius
        bin_size resolution support_angle = Raise e ->
      Exists (fun p =>
                np_lt A (np_dot A (snd oriented_point) (snd p))
                      (np_cos A support_angle) = false /\
                bin_index A resolution bin_size
                  (fst (spin_coords A (fst oriented_point) (snd oriented_point) (fst p)))
                  (snd (spin_coords A (fst oriented_point) (snd oriented_point) (fst p)))
                = Raise e)
             (combine (points chunk) (normals chunk))) /\
  ((0 <= resolution)%Z ->
   Forall (rejected A (fst oriented_point) (snd oriented_point) bin_size resolution
             (np_cos A support_angle))
          (combine (points chunk) (normals chunk)) ->
   compute_spin_image_with_support_angle A oriented_point chunk support_radius
     bin_size resolution support_angle = OK (zeros A resolution)).
Proof.
  intros Hint. split; [|split; [|split]].
  - intros Hres. unfold compute_spin_image_with_support_angle.
    now rewrite np_zeros_negative.
  - intros e He.
    pose proof (compute_in_range A oriented_point chunk support_radius bin_size
                  resolution support_angle Hint) as Hr.
    rewrite He in Hr. exact Hr.
  - intros e Hres. unfold compute_spin_image_with_support_angle.
    rewrite np_zeros_ok by exact Hres. cbn [bind].
    apply for_each_error_source. now apply shaped_zeros.
  - intros Hres Hall. unfold compute_spin_image_with_support_angle.
    rewrite np_zeros_ok by exact Hres. cbn [bind].
    now apply for_each_rejected.
Qed.

(** C6. A neighbour changes the grid only if [0 <= i < resolution - 1]
    and [0 <= j < resolution - 1].  A neighbour whose indices fall
    outside, in particular one with [i] or [j] equal to
    [resolution - 1], leaves the grid as it is and raises nothing. *)
Theorem bounds_check_drop (O n_A : vec3 F) (bin_size : F) (resolution : Z)
  (cos_threshold : F) (SI : grid F) (x n_B : vec3 F) :
  (forall i j : Z,
      in_bounds resolution i j = true <->
      (0 <= i < resolution - 1 /\ 0 <= j < resolution - 1)%Z) /\
  (forall i j : Z,
      bin_index A resolution bin_size (fst (spin_coords A O n_A x))
                (snd (spin_coords A O n_A x)) = OK (i, j) ->
      in_bounds resolution i j = false ->
      loop_body A O n_A bin_size resolution cos_threshold SI (x, n_B) = OK SI) /\
  (forall i j : Z,
      bin_index A resolution bin_size (fst (spin_coords A O n_A x))
                (snd (spin_coords A O n_A x)) = OK (i, j) ->
      (i = resolution - 1 \/ j = resolution - 1)%Z ->
      loop_body A O n_A bin_size resolution cos_threshold SI (x, n_B) = OK SI) /\
  (forall SI' : grid F,
      loop_body A O n_A bin_size resolution cos_threshold SI (x, n_B) = OK SI' ->
      SI' <> SI ->
      exists i j : Z,
        bin_index A resolution bin_size (fst (spin_coords A O n_A x))
                  (snd (spin_coords A O n_A x)) = OK (i, j) /\
        (0 <= i < resolution - 1 /\ 0 <= j < resolution - 1)%Z).
Proof.
  split; [intros i j; apply in_bounds_spec|].
  split; [intros i j Hidx Hb; now apply (loop_body_drop A _ _ _ _ _ _ _ _ i j)|].
  split.
  - intros i j Hidx Hij. apply (loop_body_drop A _ _ _ _ _ _ _ _ i j); [exact Hidx|].
    destruct (in_bounds resolution i j) eqn:Hb; [|reflexivity].
    apply in_bounds_spec in Hb. lia.
  - intros SI' Hrun Hne. unfold loop_body in Hrun.
    destruct (np_lt A _ _); [congruence|]. rewrite bin_neighbor_unfold in Hrun.
    destruct (bin_index A _ _ _ _) as [[i j]|e]; cbn [bind] in Hrun;
      [|discriminate].
    destruct (in_bounds resolution i j) eqn:Hb; [|congruence].
    exists i, j. split; [reflexivity|]. now apply in_bounds_spec.
Qed.

(** C8. With an empty neighbour set, and with a neighbour set in which
    every point fails the angle test or the bounds check, the function
    raises nothing and returns the [resolution] x [resolution] grid of
    zeros. *)
Theorem all_rejected_zero_grid (oriented_point : vec3 F * vec3 F)
  (chunk : point_cloud F) (support_radius bin_size : F) (resolution : Z)
  (support_angle : F) :
  (0 <= resolution)%Z ->
  shaped resolution (zeros A resolution) /\
  Forall (Forall (fun v => v = np_of_int A 0)) (zeros A resolution) /\
  compute_spin_image_with_support_angle A oriented_point (mkcloud [] [])
    support_radius bin_size resolution support_angle =
  OK (zeros A resolution) /\
  (Forall (rejected A (fst oriented_point) (snd oriented_point) bin_size resolution
             (np_cos A support_angle))
          (combine (points chunk) (normals chunk)) ->
   compute_spin_image_with_support_angle A oriented_point chunk
     support_radius bin_size resolution support_angle =
   OK (zeros A resolution)).
Proof.
  intros Hres. split; [now apply shaped_zeros|]. split; [apply zeros_zero|].
  unfold compute_spin_image_with_support_angle.
  rewrite np_zeros_ok by exact Hres. cbn [bind points normals combine for_each].
  split; [reflexivity|]. intros Hall. now apply for_each_rejected.
Qed.

(** X1. Whatever the inputs, finite or not, the function never raises
    [IndexError], and a grid it returns has [resolution] rows of
    [resolution] cells: the bounds check of line 50 keeps the four
    updates inside the grid. *)
Theorem never_index_error (oriented_point : vec3 F * vec3 F)
  (chunk : point_cloud F) (support_radius bin_size : F) (resolution : Z)
  (support_angle : F) :
  int_errors A ->
  compute_spin_image_with_support_angle A oriented_point chunk support_radius
    bin_size resolution support_angle <> Raise IndexError /\
  forall SI : grid F,
    compute_spin_image_with_support_angle A oriented_point chunk support_radius
      bin_size resolution support_angle = OK SI ->
    shaped resolution SI.
Proof.
  intros Hint.
  pose proof (compute_in_range A oriented_point chunk support_radius bin_size
                resolution support_angle Hint) as Hr.
  split.
  - intros He. rewrite He in Hr. destruct Hr; discriminate.
  - intros SI HSI. now rewrite HSI in Hr.
Qed.

(** X13. With a resolution of 0 or 1, which is not rejected, no
    neighbour can pass the bounds check: whatever the inputs, a grid
    that is returned is the zero grid. *)
Theorem small_resolution_zero_grid (oriented_point : vec3 F * vec3 F)
  (chunk : point_cloud F) (support_radius bin_size : F) (resolution : Z)
  (support_angle : F) (SI : grid F) :
  (0 <= resolution <= 1)%Z ->
  compute_spin_image_with_support_angle A oriented_point chunk support_radius
    bin_size resolution support_angle = OK SI ->
  SI = zeros A resolution.
Proof.
  intros Hres. unfold compute_spin_image_with_support_angle.
  rewrite np_zeros_ok by lia. cbn [bind].
  generalize (zeros A resolution) as S0.
  induction (combine (points chunk) (normals chunk)) as [|p l IH]; intros S0 Hrun.
  - cbn [for_each] in Hrun. congruence.
  - cbn [for_each] in Hrun.
    destruct (loop_body A _ _ _ _ _ S0 p) as [S1|e] eqn:Hstep; cbn [bind] in Hrun;
      [|discriminate].
    apply loop_body_small in Hstep; [|lia]. subst S1. now apply IH.
Qed.

(** X17. Positions and normals are paired up to the shorter of the two
    arrays; whatever follows in the longer one is ignored. *)
Theorem surplus_entries_ignored (oriented_point : vec3 F * vec3 F)
  (chunk : point_cloud F) (support_radius bin_size : F) (resolution : Z)
  (support_angle : F) :
  let n := Nat.min (length (points chunk)) (length (normals chunk)) in
  compute_spin_image_with_support_angle A oriented_point chunk support_radius
    bin_size resolution support_angle =
  compute_spin_image_with_support_angle A oriented_point
    (mkcloud (firstn n (points chunk)) (firstn n (normals chunk)))
    support_radius bin_size resolution support_angle.
Proof.
  intros n. unfold compute_spin_image_with_support_angle.
  cbn [points normals]. rewrite <- combine_firstn.
  rewrite firstn_all2; [reflexivity|].
  rewrite length_combine. unfold n. lia.
Qed.

End GenericClaims.

(** ** The angle test *)


(** C10. A neighbour whose normal lies exactly on the support cone,
    [dot(n_A, n_B) = cos(support_angle)], is not skipped: the test is a
    strict comparison, and the neighbour is handed to the binning.
    This holds in the rounded arithmetic and on binary64. *)
Theorem cone_boundary_accepted :
  (forall (round : R -> np_float) (cosr : R -> R) (O n_A : vec3 np_float)
          (bin_size : np_float) (resolution : Z) (support_angle : np_float)
          (SI : grid np_float) (x n_B : vec3 np_float),
      np_dot (rounded round cosr) n_A n_B = np_cos (rounded round cosr) support_angle ->
      np_lt (rounded round cosr) (np_dot (rounded round cosr) n_A n_B)
            (np_cos (rounded round cosr) support_angle) = false /\
      loop_body (rounded round cosr) O n_A bin_size resolution
        (np_cos (rounded round cosr) support_angle) SI (x, n_B) =
      bin_neighbor (rounded round cosr) O n_A bin_size resolution SI x) /\
  (forall (cos64 : float -> float) (O n_A : vec3 float) (bin_size : float)
          (resolution : Z) (support_angle : float) (SI : grid float)
          (x n_B : vec3 float),
      np_dot (binary64 cos64) n_A n_B = np_cos (binary64 cos64) support_angle ->
      np_lt (binary64 cos64) (np_dot (binary64 cos64) n_A n_B)
            (np_cos (binary64 cos64) support_angle) = false /\
      loop_body (binary64 cos64) O n_A bin_size resolution
        (np_cos (binary64 cos64) support_angle) SI (x, n_B) =
      bin_neighbor (binary64 cos64) O n_A bin_size resolution SI x).
Proof.
  split.
  - intros round cosr O n_A bin_size resolution support_angle SI x n_B Heq.
    assert (Hlt : np_lt (rounded round cosr) (np_dot (rounded round cosr) n_A n_B)
                    (np_cos (rounded round cosr) support_angle) = false)
      by (rewrite Heq; apply rr_lt_irrefl).
    split; [exact Hlt|]. now apply loop_body_accept.
  - intros cos64 O n_A bin_size resolution support_angle SI x n_B Heq.
    assert (Hlt : np_lt (binary64 cos64) (np_dot (binary64 cos64) n_A n_B)
                    (np_cos (binary64 cos64) support_angle) = false)
      by (rewrite Heq; apply b64_lt_irrefl).
    split; [exact Hlt|]. now apply loop_body_accept.
Qed.

(** ** The end-to-end example *)

(** C7. Resolution 4, bin size 1, support angle pi, reference point at
    the origin with normal (0,0,1), one neighbour at (0,0,1) with any
    unit normal: [d = (0,0,1)], [alpha = 0], [beta = 1], [i_f = 1],
    [j_f = 0], and the result holds 1 in bin (1,0) and 0 in every other
    bin.  In the rounded arithmetic this holds for every unit normal;
    on binary64 it is the run of the program, for every normal that the
    angle test lets pass at the threshold [-1.0] that [np.cos(np.pi)]
    returns. *)
Theorem end_to_end_example (round : R -> np_float) (cosr : R -> R)
  (n_B : rvec) (support_radius support_angle : np_float) :
  ieee_round round ->
  np_cos (rounded round cosr) support_angle = Fin (-1) ->
  unit_vec n_B ->
  (vec_sub (rounded round cosr) (embed e_z) (embed origin) = embed e_z /\
   spin_coords (rounded round cosr) (embed origin) (embed e_z) (embed e_z) =
     (Fin 0, Fin 1) /\
   row_coord (rounded round cosr) 4 (Fin 1) (Fin 1) = Fin 1 /\
   col_coord (rounded round cosr) (Fin 1) (Fin 0) = Fin 0 /\
   bin_index (rounded round cosr) 4 (Fin 1) (Fin 0) (Fin 1) = OK (1%Z, 0%Z) /\
   compute_spin_image_with_support_angle (rounded round cosr)
     (embed origin, embed e_z) (mkcloud [embed e_z] [embed n_B])
     support_radius (Fin 1) 4 support_angle =
   OK (example_grid (Fin 0) (Fin 1))) /\
  (forall (cos64 : float -> float) (n_B64 : vec3 float) (support_radius64 : float),
      cos64 pi64 = (-1)%float ->
      PrimFloat.ltb (np_dot (binary64 cos64) e_z64 n_B64) (-1)%float = false ->
      vec_sub (binary64 cos64) e_z64 origin64 = e_z64 /\
      spin_coords (binary64 cos64) origin64 e_z64 e_z64 = (0%float, 1%float) /\
      row_coord (binary64 cos64) 4 1%float 1%float = 1%float /\
      col_coord (binary64 cos64) 1%float 0%float = 0%float /\
      bin_index (binary64 cos64) 4 1%float 0%float 1%float = OK (1%Z, 0%Z) /\
      compute_spin_image_with_support_angle (binary64 cos64)
        (origin64, e_z64) (mkcloud [e_z64] [n_B64])
        support_radius64 1%float 4 pi64 =
      OK (example_grid 0%float 1%float)).
Proof.
  intros Hround Hcos Hunit. split.
  - split; [now apply example_sub|].
    split; [now apply example_coords|].
    split; [now apply example_row|].
    split; [now apply example_col|].
    split; [now apply example_index|].
    apply example_run; [exact Hround|now apply unit_vec_bound|exact Hcos].
  - intros cos64 n_B64 support_radius64 Hcos64 Hpass.
    split; [vm_compute; reflexivity|].
    split; [vm_compute; reflexivity|].
    split; [vm_compute; reflexivity|].
    split; [vm_compute; reflexivity|].
    split; [vm_compute; reflexivity|].
    now apply example_run64.
Qed.

(** ** The support radius *)

(** C9. The support radius has no influence on the result: two calls
    that differ in it alone return the same grid, or raise the same
    error.  There is no distance test: in the running example the
    neighbour at distance 1 contributes its full mass for every support
    radius, however small. *)
Theorem support_radius_unused (F : Type) (A : arith F)
  (oriented_point : vec3 F * vec3 F) (chunk : point_cloud F)
  (support_radius support_radius' bin_size : F) (resolution : Z)
  (support_angle : F) :
  compute_spin_image_with_support_angle A oriented_point chunk support_radius
    bin_size resolution support_angle =
  compute_spin_image_with_support_angle A oriented_point chunk support_radius'
    bin_size resolution support_angle /\
  np_norm (binary64 cos_pi) (vec_sub (binary64 cos_pi) e_z64 origin64) = 1%float /\
  (forall (cos64 : float -> float) (r : float),
      cos64 pi64 = (-1)%float ->
      compute_spin_image_with_support_angle (binary64 cos64) (origin64, e_z64)
        (mkcloud [e_z64] [e_z64]) r 1%float 4 pi64 =
      OK (example_grid 0%float 1%float)) /\
  (forall (round : R -> np_float) (cosr : R -> R) (r support_angle_pi : np_float),
      ieee_round round ->
      np_cos (rounded round cosr) support_angle_pi = Fin (-1) ->
      np_norm (rounded round cosr)
        (vec_sub (rounded round cosr) (embed e_z) (embed origin)) = Fin 1 /\
      compute_spin_image_with_support_angle (rounded round cosr)
        (embed origin, embed e_z) (mkcloud [embed e_z] [embed e_z]) r (Fin 1) 4
        support_angle_pi =
      OK (example_grid (Fin 0) (Fin 1))).
Proof.
  split; [reflexivity|]. split; [vm_compute; reflexivity|]. split.
  - intros cos64 r Hcos. apply example_run64; [exact Hcos|].
    vm_compute. reflexivity.
  - intros round cosr r support_angle_pi Hround Hcos. split.
    + rewrite example_sub by exact Hround. unfold np_norm.
      rewrite dot_e_z by exact Hround. cbn [rz e_z].
      rewrite (round_1 round Hround). cbn [np_sqrt rounded rr_sqrt].
      destruct (Rlt_dec 1 0); [lra|]. rewrite sqrt_1. exact (round_1 round Hround).
    + apply example_run; [exact Hround|cbn [rz e_z]; lra|exact Hcos].
Qed.

(** ** The caller *)

Lemma nth_error_combine {A B : Type} (l : list A) (m : list B) (i : nat)
  (a : A) (b : B) :
  nth_error l i = Some a -> nth_error m i = Some b ->
  nth_error (combine l m) i = Some (a, b).
Proof.
  revert m i. induction l as [|x l IH]; intros [|y m] [|i] Ha Hb;
    simpl in *; try discriminate.
  - congruence.
  - now apply IH.
Qed.

(** X18. A chunk with fewer than 501 points, or fewer than 501 normals,
    makes the caller fail with [IndexError] before any grid is
    allocated, whatever the other parameters.  Otherwise the spin image
    is that of the chunk about its own entry 500, which is therefore
    one of the neighbours the loop visits. *)
Theorem caller_reference_point (F : Type) (A : arith F)
  (select_by_index : point_cloud F -> list Z -> point_cloud F)
  (estimate_normals : point_cloud F -> point_cloud F)
  (mesh : point_cloud F) (chunk_indices : list Z)
  (support_radius bin_size : F) (resolution : Z) (support_angle : F) :
  let chunk := estimate_normals (select_by_index mesh chunk_indices) in
  ((length (points chunk) <= 500)%nat \/ (length (normals chunk) <= 500)%nat ->
   chunk_spin_image A select_by_index estimate_normals mesh chunk_indices
     support_radius bin_size resolution support_angle = Raise IndexError) /\
  (forall p n : vec3 F,
      nth_error (points chunk) 500 = Some p ->
      nth_error (normals chunk) 500 = Some n ->
      chunk_spin_image A select_by_index estimate_normals mesh chunk_indices
        support_radius bin_size resolution support_angle =
      compute_spin_image_with_support_angle A (p, n) chunk support_radius
        bin_size resolution support_angle /\
      nth_error (combine (points chunk) (normals chunk)) 500 = Some (p, n)).
Proof.
  intros chunk. unfold chunk_spin_image. fold chunk. unfold get_item. split.
  - intros [H|H].
    + apply nth_error_None in H. now rewrite H.
    + apply nth_error_None in H. rewrite H.
      destruct (nth_error (points chunk) 500); reflexivity.
  - intros p n Hp Hn. rewrite Hp, Hn. cbn [bind]. split; [reflexivity|].
    now apply nth_error_combine.
Qed.

(** * Where the specification and the code part *)

(** The claim C2 fails on the code as stated: the four weights do not
    sum to exactly 1.  For the neighbour (0.16, 0, -0.03) about the
    origin with normal (0,0,1), bin size 1 and resolution 4, the bin is
    (2, 0) and passes the bounds check; the float sum of the four
    weights is not 1.0, and their exact sum is [1 - 98 * 2^-60]. *)
Lemma weights_sum_inexact :
  bin_index (binary64 cos_pi) 4 1%float
    (fst (spin_coords (binary64 cos_pi) origin64 e_z64 x016))
    (snd (spin_coords (binary64 cos_pi) origin64 e_z64 x016)) = OK (2%Z, 0%Z) /\
  in_bounds 4 2 0 = true /\
  compute_spin_image_with_support_angle (binary64 cos_pi) (origin64, e_z64)
    (mkcloud [x016] [e_z64]) 1%float 1%float 4 pi64 =
  accumulate (binary64 cos_pi) (zeros (binary64 cos_pi) 4) 2 0 w016 /\
  PrimFloat.eqb (float_sum (weights_list w016)) 1%float = false /\
  PrimFloat.ltb (float_sum (weights_list w016)) 1%float = true /\
  exact_sum 60 (weights_list w016) = Some (2 ^ 60 - 98)%Z /\
  exact_sum 60 [1%float] = Some (2 ^ 60)%Z.
Proof. repeat split; vm_compute; reflexivity. Qed.

(** The claim C3 fails on the code, which validates nothing: a negative
    bin size, a resolution of 1, a support angle of 140 radians,
    position and normal arrays of different lengths and a [nan]
    reference normal each return a grid; and an input that meets every
    stated precondition raises [ValueError], when the square of a
    coordinate overflows. *)
Lemma validation_absent :
  compute_spin_image_with_support_angle (binary64 cos_pi) (origin64, e_z64)
    (mkcloud [mkvec 0%float 0%float (-1)%float] [e_z64]) 1%float (-1)%float 4 pi64 =
  OK (example_grid 0%float 1%float) /\
  compute_spin_image_with_support_angle (binary64 cos_pi) (origin64, e_z64)
    (mkcloud [e_z64] [e_z64]) 1%float 1%float 1 pi64 =
  OK [[0%float]] /\
  (forall cos64 : float -> float,
      PrimFloat.ltb 1%float (cos64 140%float) = false ->
      compute_spin_image_with_support_angle (binary64 cos64) (origin64, e_z64)
        (mkcloud [e_z64] [e_z64]) 1%float 1%float 4 140%float =
      OK (example_grid 0%float 1%float)) /\
  compute_spin_image_with_support_angle (binary64 cos_pi) (origin64, e_z64)
    (mkcloud [e_z64; e_z64] [e_z64]) 1%float 1%float 4 pi64 =
  OK (example_grid 0%float 1%float) /\
  compute_spin_image_with_support_angle (binary64 cos_pi)
    (origin64, mkvec nan nan nan) (mkcloud [] []) 1%float 1%float 4 pi64 =
  OK (zeros (binary64 cos_pi) 4) /\
  compute_spin_image_with_support_angle (binary64 cos_pi) (origin64, e_z64)
    (mkcloud [mkvec 0%float 0%float big64] [e_z64]) 1%float 1%float 4 pi64 =
  Raise ValueError.
Proof.
  repeat split; try (vm_compute; reflexivity).
  intros cos64 Hcos. rewrite binary64_call.
  change (np_zeros (binary64 cos_pi) 4) with (OK (zeros (binary64 cos_pi) 4)).
  cbn [bind fst snd points normals combine for_each].
  rewrite loop_body_accept by exact Hcos.
  vm_compute. reflexivity.
Qed.

(** The claim C4 fails on the code, which takes the root without a
    clamp.  The normal (3/5, 4/5, 0) has the computed length 1.0; for
    the neighbour 3/7 of the way along it from the origin, the computed
    [|d|^2 - beta^2] is negative, [alpha] is [nan], and the call raises
    [ValueError]. *)
Lemma alpha_not_clamped :
  np_norm (binary64 cos_pi) n35 = 1%float /\
  PrimFloat.ltb (radicand (binary64 cos_pi) origin64 n35 x37) 0%float = true /\
  Prim2SF (fst (spin_coords (binary64 cos_pi) origin64 n35 x37)) = S754_nan /\
  compute_spin_image_with_support_angle (binary64 cos_pi) (origin64, n35)
    (mkcloud [x37] [n35]) 1%float 1%float 4 pi64 =
  Raise ValueError.
Proof. repeat split; vm_compute; reflexivity. Qed.


(** * The statements at concrete inputs *)

Lemma exact_accept :
  np_lt exact_arith (np_dot exact_arith (embed e_z) (embed e_z)) (Fin (-1)) = false.
Proof.
  apply (example_accept Fin cos exact_round_ieee e_z). cbn [rz e_z]. lra.
Qed.

Lemma unit_e_z : unit_vec e_z.
Proof. unfold unit_vec, rdot, e_z. cbn [rx ry rz]. lra. Qed.

Lemma exact_cos_pi : np_cos exact_arith (Fin PI) = Fin (-1).
Proof. cbn [np_cos exact_arith rounded rr_cos]. now rewrite cos_PI. Qed.

Lemma bin_index_mapping_witness :
  ieee_round Fin /\
  bin_index exact_arith 4 (Fin 1) (Fin 0) (Fin 0) = OK (2%Z, 0%Z).
Proof.
  split; [exact exact_round_ieee|].
  destruct (bin_index_mapping Fin cos exact_round_ieee (embed origin) (embed e_z)
              (embed e_z) (Fin 1) 4 []) as (_ & _ & _ & H & _).
  apply (H (Fin 0) 0%Z).
  - lia.
  - intros [= H1]. lra.
  - discriminate.
  - apply (col_index_zero Fin cos exact_round_ieee).
    + intros [= H1]. lra.
    + discriminate.
Defined.

Lemma bilinear_mass_conservation_witness :
  ieee_round Fin /\
  bin_index exact_arith 4 (Fin 1)
    (fst (spin_coords exact_arith (embed origin) (embed e_z) (embed e_z)))
    (snd (spin_coords exact_arith (embed origin) (embed e_z) (embed e_z))) =
  OK (1%Z, 0%Z) /\
  in_bounds 4 1 0 = true /\
  exists w00 w10 w01 w11 : R,
    (0 <= w00 <= 1 /\ 0 <= w10 <= 1 /\ 0 <= w01 <= 1 /\ 0 <= w11 <= 1) /\
    Rabs (w00 + w10 + w01 + w11 - 1) <= 7 * eps64.
Proof.
  assert (Hidx : bin_index exact_arith 4 (Fin 1)
            (fst (spin_coords exact_arith (embed origin) (embed e_z) (embed e_z)))
            (snd (spin_coords exact_arith (embed origin) (embed e_z) (embed e_z))) =
          OK (1%Z, 0%Z)).
  { unfold exact_arith. rewrite (example_coords Fin cos exact_round_ieee).
    apply (example_index Fin cos exact_round_ieee). }
  split; [exact exact_round_ieee|]. split; [exact Hidx|].
  split; [reflexivity|].
  destruct (bilinear_mass_conservation Fin cos exact_round_ieee
              (embed origin) (embed e_z) (Fin 1) 4 (Fin (-1)) [] (embed e_z)
              (embed e_z) 1 0 exact_accept Hidx eq_refl)
    as (w00 & w10 & w01 & w11 & _ & H01 & Hsum & _).
  exists w00, w10, w01, w11. split; [exact H01|exact Hsum].
Defined.

Lemma build_without_validation_witness :
  int_errors (binary64 cos_pi) /\
  compute_spin_image_with_support_angle (binary64 cos_pi) (origin64, e_z64)
    (mkcloud [] []) 1%float 1%float 4 pi64 = OK (zeros (binary64 cos_pi) 4).
Proof.
  split; [exact (binary64_int_errors cos_pi)|].
  destruct (build_without_validation (binary64 cos_pi) (origin64, e_z64)
              (mkcloud [] []) 1%float 1%float 4 pi64 (binary64_int_errors cos_pi))
    as (_ & _ & _ & H).
  apply H; [lia|constructor].
Defined.

Lemma alpha_root_of_radicand_witness :
  ieee_round Fin /\
  fst (spin_coords exact_arith (embed origin) (embed e_z) (embed e_z)) =
  np_sqrt exact_arith (radicand exact_arith (embed origin) (embed e_z) (embed e_z)).
Proof.
  split; [exact exact_round_ieee|].
  exact (proj1 (alpha_root_of_radicand Fin cos exact_round_ieee
                  (embed origin) (embed e_z) (embed e_z))).
Defined.

Lemma bounds_check_drop_witness :
  bin_index (binary64 cos_pi) 4 1%float
    (fst (spin_coords (binary64 cos_pi) origin64 e_z64
            (mkvec 0%float 0%float (-1)%float)))
    (snd (spin_coords (binary64 cos_pi) origin64 e_z64
            (mkvec 0%float 0%float (-1)%float))) = OK (3%Z, 0%Z) /\
  loop_body (binary64 cos_pi) origin64 e_z64 1%float 4 (-1)%float
    (zeros (binary64 cos_pi) 4) (mkvec 0%float 0%float (-1)%float, e_z64) =
  OK (zeros (binary64 cos_pi) 4).
Proof.
  assert (Hidx : bin_index (binary64 cos_pi) 4 1%float
            (fst (spin_coords (binary64 cos_pi) origin64 e_z64
                    (mkvec 0%float 0%float (-1)%float)))
            (snd (spin_coords (binary64 cos_pi) origin64 e_z64
                    (mkvec 0%float 0%float (-1)%float))) = OK (3%Z, 0%Z))
    by (vm_compute; reflexivity).
  split; [exact Hidx|].
  destruct (bounds_check_drop (binary64 cos_pi) origin64 e_z64 1%float 4
              (-1)%float (zeros (binary64 cos_pi) 4)
              (mkvec 0%float 0%float (-1)%float) e_z64) as (_ & _ & H & _).
  apply (H 3%Z 0%Z Hidx). left. lia.
Defined.

Lemma end_to_end_example_witness :
  ieee_round Fin /\
  np_cos exact_arith (Fin PI) = Fin (-1) /\
  unit_vec e_z /\
  compute_spin_image_with_support_angle exact_arith (embed origin, embed e_z)
    (mkcloud [embed e_z] [embed e_z]) (Fin 1) (Fin 1) 4 (Fin PI) =
  OK (example_grid (Fin 0) (Fin 1)).
Proof.
  split; [exact exact_round_ieee|]. split; [exact exact_cos_pi|].
  split; [exact unit_e_z|].
  destruct (end_to_end_example Fin cos e_z (Fin 1) (Fin PI) exact_round_ieee
              exact_cos_pi unit_e_z) as [(_ & _ & _ & _ & _ & H) _].
  exact H.
Defined.

Lemma all_rejected_zero_grid_witness :
  (0 <= 4)%Z /\
  compute_spin_image_with_support_angle (binary64 cos_pi) (origin64, e_z64)
    (mkcloud [] []) 1%float 1%float 4 pi64 = OK (zeros (binary64 cos_pi) 4).
Proof.
  split; [lia|].
  destruct (all_rejected_zero_grid (binary64 cos_pi) (origin64, e_z64)
              (mkcloud [] []) 1%float 1%float 4 pi64 ltac:(lia))
    as (_ & _ & H & _).
  exact H.
Defined.

Lemma cone_boundary_accepted_witness :
  np_dot (binary64 cos_pi) e_z64 (mkvec 0%float 0%float (-1)%float) =
  np_cos (binary64 cos_pi) pi64 /\
  loop_body (binary64 cos_pi) origin64 e_z64 1%float 4
    (np_cos (binary64 cos_pi) pi64) (zeros (binary64 cos_pi) 4)
    (e_z64, mkvec 0%float 0%float (-1)%float) =
  bin_neighbor (binary64 cos_pi) origin64 e_z64 1%float 4
    (zeros (binary64 cos_pi) 4) e_z64.
Proof.
  assert (Heq : np_dot (binary64 cos_pi) e_z64 (mkvec 0%float 0%float (-1)%float) =
                np_cos (binary64 cos_pi) pi64) by (vm_compute; reflexivity).
  split; [exact Heq|].
  exact (proj2 (proj2 cone_boundary_accepted cos_pi origin64 e_z64 1%float 4%Z pi64
                  (zeros (binary64 cos_pi) 4) e_z64
                  (mkvec 0%float 0%float (-1)%float) Heq)).
Defined.

Lemma never_index_error_witness :
  int_errors (binary64 cos_pi) /\
  forall SI : grid float,
    compute_spin_image_with_support_angle (binary64 cos_pi) (origin64, e_z64)
      (mkcloud [e_z64] [e_z64]) 1%float 1%float 4 pi64 = OK SI ->
    shaped 4 SI.
Proof.
  split; [exact (binary64_int_errors cos_pi)|].
  exact (proj2 (never_index_error (binary64 cos_pi) (origin64, e_z64)
                  (mkcloud [e_z64] [e_z64]) 1%float 1%float 4 pi64
                  (binary64_int_errors cos_pi))).
Defined.

Lemma exact_example_run :
  compute_spin_image_with_support_angle exact_arith (embed origin, embed e_z)
    (mkcloud [embed e_z] [embed e_z]) (Fin 1) (Fin 1) 4 (Fin PI) =
  OK (example_grid (Fin 0) (Fin 1)).
Proof.
  apply (example_run Fin cos exact_round_ieee e_z);
    [cbn [rz e_z]; lra|exact exact_cos_pi].
Qed.

Lemma cells_nonneg_witness :
  ieee_round Fin /\
  compute_spin_image_with_support_angle exact_arith (embed origin, embed e_z)
    (mkcloud [embed e_z] [embed e_z]) (Fin 1) (Fin 1) 4 (Fin PI) =
  OK (example_grid (Fin 0) (Fin 1)) /\
  Forall (Forall np_nonneg) (example_grid (Fin 0) (Fin 1)).
Proof.
  split; [exact exact_round_ieee|]. split; [exact exact_example_run|].
  exact (cells_nonneg Fin cos exact_round_ieee (embed origin, embed e_z)
           (mkcloud [embed e_z] [embed e_z]) (Fin 1) (Fin 1) 4 (Fin PI)
           (example_grid (Fin 0) (Fin 1)) exact_example_run).
Defined.

Lemma self_point_deposit_witness :
  ieee_round Fin /\
  (3 <= 4 <= 2 ^ 53)%Z /\
  np_lt exact_arith (np_dot exact_arith (embed e_z) (embed e_z)) (Fin (-1)) = false /\
  spin_coords exact_arith (embed origin) (embed e_z) (embed origin) = (Fin 0, Fin 0).
Proof.
  split; [exact exact_round_ieee|]. split; [lia|]. split; [exact exact_accept|].
  assert (H0 : Fin 1 <> Fin 0) by (intros [= H]; lra).
  assert (Hn : Fin 1 <> NaN) by discriminate.
  exact (proj1 (self_point_deposit Fin cos exact_round_ieee origin e_z (Fin 1) 4
                  (Fin (-1)) [] (embed e_z) ltac:(lia) H0 Hn exact_accept)).
Defined.

Lemma zero_bin_size_witness :
  (0 <= 4)%Z /\
  compute_spin_image_with_support_angle exact_arith (embed origin, embed e_z)
    (mkcloud [] []) (Fin 1) (Fin 0) 4 (Fin PI) = OK (zeros exact_arith 4).
Proof.
  split; [lia|].
  destruct (zero_bin_size Fin cos (embed origin, embed e_z) (mkcloud [] [])
              (Fin 1) 4 (Fin PI) ltac:(lia)) as [_ H].
  apply H. constructor.
Defined.

Lemma small_resolution_zero_grid_witness :
  (0 <= 1 <= 1)%Z /\
  compute_spin_image_with_support_angle (binary64 cos_pi) (origin64, e_z64)
    (mkcloud [e_z64] [e_z64]) 1%float 1%float 1 pi64 = OK [[0%float]] /\
  [[0%float]] = zeros (binary64 cos_pi) 1.
Proof.
  assert (Hrun : compute_spin_image_with_support_angle (binary64 cos_pi)
                   (origin64, e_z64) (mkcloud [e_z64] [e_z64]) 1%float 1%float 1
                   pi64 = OK [[0%float]]) by (vm_compute; reflexivity).
  split; [lia|]. split; [exact Hrun|].
  exact (small_resolution_zero_grid (binary64 cos_pi) (origin64, e_z64)
           (mkcloud [e_z64] [e_z64]) 1%float 1%float 1 pi64 [[0%float]]
           ltac:(lia) Hrun).
Defined.

Lemma angle_test_bypassed_witness :
  loop_body exact_arith (embed origin) (embed e_z) (Fin 1) 4
    (np_cos exact_arith NaN) [] (embed e_z, embed e_z) =
  bin_neighbor exact_arith (embed origin) (embed e_z) (Fin 1) 4 [] (embed e_z).
Proof.
  apply (angle_test_bypassed Fin cos (embed origin) (embed e_z) (Fin 1) 4 NaN []
           (embed e_z) (embed e_z)).
  do 8 right. reflexivity.
Defined.

Lemma nan_position_raises_witness :
  np_lt exact_arith (np_dot exact_arith (embed e_z) (embed e_z)) (Fin (-1)) = false /\
  loop_body exact_arith (embed origin) (embed e_z) (Fin 1) 4 (Fin (-1)) []
    (mkvec NaN (Fin 0) (Fin 0), embed e_z) = Raise ValueError.
Proof.
  split; [exact exact_accept|].
  apply (nan_position_raises Fin cos (embed origin) (embed e_z) (Fin 1) 4
           (Fin (-1)) [] (mkvec NaN (Fin 0) (Fin 0)) (embed e_z)).
  - left. reflexivity.
  - exact exact_accept.
Defined.
